(** * Drag and Drop v2: state migrations, feedback messages, placement engine

    A shallow embedding of [drag_and_drop_v2/utils.py], followed by a model
    of the placement engine the integration tests exercise.  Python dictionaries
    are mutable objects that callers share by reference, so the embedding
    keeps an explicit object store: a value is either immutable data or a
    reference into the store, and every function of the module is a
    computation in a small state-and-exception monad over that store. *)

From Stdlib Require Import Ascii QArith.
From stdpp Require Import gmap strings list fin_maps pretty.

Open Scope string_scope.

(** ** Python values and the object store *)

(** Exceptions the modelled fragment can raise.  [SystemError] is what the
    model answers for a reference that is not in the store, which no Python
    program can build. *)
Inductive exn :=
  | AttributeError
  | KeyError
  | IndexError
  | TypeError
  | ValueError
  | NameError
  | SystemError.

Inductive result (A : Type) :=
  | Ok (a : A)
  | Raise (e : exn).
Arguments Ok {A} a.
Arguments Raise {A} e.

Abbreviation loc := positive (only parsing).

(** Immutable values are carried in place, mutable ones (dict, list) live in
    the store and are named by [VRef].  Dictionary keys are strings: the
    records of this module come from JSON objects and the code only ever
    uses string keys.  Numbers other than integers are never inspected by
    the code and are left out. *)
#[warnings="-register-all"]
Inductive value :=
  | VNone
  | VBool (b : bool)
  | VInt (n : Z)
  | VStr (s : string)
  | VTuple (vs : list value)
  | VRef (l : loc).

Inductive object :=
  | ODict (d : gmap string value)
  | OList (vs : list value).

Abbreviation heap := (gmap positive object) (only parsing).

(** [list.copy()] exists from Python 3.3 on; under Python 2 a list has no
    such attribute.  The one place where the two differ is [py_copy]. *)
Inductive py_version := Py2 | Py3.

(** ** The monad *)

Definition py (A : Type) : Type := heap → result A * heap.

Definition ret {A} (a : A) : py A := λ h, (Ok a, h).
Definition raise {A} (e : exn) : py A := λ h, (Raise e, h).
Definition bind {A B} (f : A → py B) (m : py A) : py B :=
  λ h, match m h with
       | (Ok a, h') => f a h'
       | (Raise e, h') => (Raise e, h')
       end.

(** An [if] without [else] falls through. *)
Definition pass : py unit := ret ().

(** stdpp's [x ← m; k] and [m;; k] notations, at this monad. *)
#[global] Instance py_ret : MRet py := @ret.
#[global] Instance py_bind : MBind py := @bind.

(** The dictionary a value denotes in a store, when it denotes one. *)
Definition deref_dict (h : heap) (v : value) : option (gmap string value) :=
  match v with
  | VRef l => match h !! l with Some (ODict d) => Some d | _ => None end
  | _ => None
  end.

Definition alloc (o : object) : py value :=
  λ h, let l := fresh (dom h) in (Ok (VRef l), <[l := o]> h).

(** ** Python primitives used by the module *)

(** [v == s] for a string constant [s]. *)
Definition py_eq_str (v : value) (s : string) : bool :=
  match v with
  | VStr t => bool_decide (t = s)
  | _ => false
  end.

Fixpoint prefix_of (p s : string) : bool :=
  match p, s with
  | EmptyString, _ => true
  | String a p', String b s' => bool_decide (a = b) && prefix_of p' s'
  | String _ _, EmptyString => false
  end.

Fixpoint substring_of (p s : string) : bool :=
  prefix_of p s ||
  match s with
  | EmptyString => false
  | String _ s' => substring_of p s'
  end.

(** [x in seq] for a string [x] and a Python list or tuple [seq]. *)
Definition str_in_list (x : string) (vs : list value) : bool :=
  existsb (λ v, py_eq_str v x) vs.

Section primitives.
Variable pv : py_version.

(** [obj.copy()] *)
Definition py_copy (obj : value) : py value :=
  match obj with
  | VRef l => λ h,
      match h !! l with
      | Some (ODict d) => alloc (ODict d) h
      | Some (OList vs) =>
          match pv with
          | Py3 => alloc (OList vs) h
          | Py2 => (Raise AttributeError, h)
          end
      | None => (Raise SystemError, h)
      end
  | _ => raise AttributeError
  end.

(** [isinstance(obj, dict)] *)
Definition py_isinstance_dict (obj : value) : py bool :=
  match obj with
  | VRef l => λ h,
      match h !! l with
      | Some (ODict _) => (Ok true, h)
      | Some (OList _) => (Ok false, h)
      | None => (Raise SystemError, h)
      end
  | _ => ret false
  end.

(** [key in obj] *)
Definition py_contains (key : string) (obj : value) : py bool :=
  match obj with
  | VRef l => λ h,
      match h !! l with
      | Some (ODict d) => (Ok (bool_decide (is_Some (d !! key))), h)
      | Some (OList vs) => (Ok (str_in_list key vs), h)
      | None => (Raise SystemError, h)
      end
  | VTuple vs => ret (str_in_list key vs)
  | VStr s => ret (substring_of key s)
  | _ => raise TypeError
  end.

(** [obj.get(key, default)] *)
Definition py_get (obj : value) (key : string) (default : value) : py value :=
  match obj with
  | VRef l => λ h,
      match h !! l with
      | Some (ODict d) => (Ok (from_option id default (d !! key)), h)
      | Some (OList _) => (Raise AttributeError, h)
      | None => (Raise SystemError, h)
      end
  | _ => raise AttributeError
  end.

(** [obj[key] = v] for a string [key] *)
Definition py_setitem (obj : value) (key : string) (v : value) : py unit :=
  match obj with
  | VRef l => λ h,
      match h !! l with
      | Some (ODict d) => (Ok (), <[l := ODict (<[key := v]> d)]> h)
      | Some (OList _) => (Raise TypeError, h)
      | None => (Raise SystemError, h)
      end
  | _ => raise TypeError
  end.

(** [obj.pop(key, None)], the popped value discarded *)
Definition py_pop (obj : value) (key : string) : py unit :=
  match obj with
  | VRef l => λ h,
      match h !! l with
      | Some (ODict d) => (Ok (), <[l := ODict (delete key d)]> h)
      | Some (OList _) => (Raise TypeError, h)
      | None => (Raise SystemError, h)
      end
  | _ => raise AttributeError
  end.

Definition seq_index (vs : list value) (i : nat) : result value :=
  match vs !! i with
  | Some v => Ok v
  | None => Raise IndexError
  end.

(** [obj[i]] for a non-negative integer constant [i] *)
Definition py_getitem (obj : value) (i : nat) : py value :=
  match obj with
  | VRef l => λ h,
      match h !! l with
      | Some (ODict _) => (Raise KeyError, h)
      | Some (OList vs) => (seq_index vs i, h)
      | None => (Raise SystemError, h)
      end
  | VTuple vs => λ h, (seq_index vs i, h)
  | VStr s => λ h,
      (match String.get i s with
       | Some c => Ok (VStr (String c EmptyString))
       | None => Raise IndexError
       end, h)
  | _ => raise TypeError
  end.
End primitives.

(** ** [Constants] *)

Module Constants.
Definition ALLOWED_ZONE_ALIGNMENTS : list string := ["left"; "right"; "center"].
Definition DEFAULT_ZONE_ALIGNMENT : string := "center".
End Constants.

(** [x in lst] for a list of string constants [lst]. *)
Definition value_in_strs (x : value) (lst : list string) : bool :=
  existsb (py_eq_str x) lst.

(** ** [StateMigration] *)

Module StateMigration.
Section with_version.
Variable pv : py_version.

(** The body of [for method in migrations: tmp = method(tmp)]. *)
Fixpoint run_migrations (migrations : list (value → py value)) (tmp : value)
  : py value :=
  match migrations with
  | [] => mret tmp
  | method :: rest => tmp' ← method tmp; run_migrations rest tmp'
  end.

Definition _apply_migration (obj : value) (migrations : list (value → py value))
  : py value :=
  tmp ← py_copy pv obj;
  run_migrations migrations tmp.

Definition _zone_v1_to_v2 (zone : value) : py value :=
  has_uid ← py_contains "uid" zone;
  (if negb has_uid
   then title ← py_get zone "title" VNone; py_setitem zone "uid" title
   else pass);;
  py_pop zone "id";;
  py_pop zone "index";;
  mret zone.

Definition _zone_v2_to_v2p1 (zone : value) : py value :=
  align ← py_get zone "align" VNone;
  (if negb (value_in_strs align Constants.ALLOWED_ZONE_ALIGNMENTS)
   then py_setitem zone "align" (VStr Constants.DEFAULT_ZONE_ALIGNMENT)
   else pass);;
  mret zone.

Definition _item_state_v1_to_v1p5 (item : value) : py value :=
  is_dict ← py_isinstance_dict item;
  if is_dict : bool then mret item
  else
    top ← py_getitem item 0;
    left ← py_getitem item 1;
    alloc (ODict {[ "top" := top; "left" := left ]}).

Definition _item_state_v1p5_to_v2 (item : value) : py value :=
  mret item.

(** The statement [del[attribute]] is [del] applied to the target list
    [[attribute]]: it unbinds the local name [attribute], which the next
    iteration of the loop binds again.  The frame of the function is
    modelled by the binding of that one name; [item] is not touched. *)
Definition del_name (binding : option string) : py (option string) :=
  match binding with
  | Some _ => mret None
  | None => raise NameError
  end.

Fixpoint for_attribute (attributes_to_remove : list string)
    (attribute : option string) : py (option string) :=
  match attributes_to_remove with
  | [] => mret attribute
  | a :: rest =>
      attribute' ← del_name (Some a);
      for_attribute rest attribute'
  end.

Definition _item_state_v2_to_v2p1 (item : value) : py value :=
  let attributes_to_remove := ["x_percent"; "y_percent"; "left"; "top"; "absolute"] in
  for_attribute attributes_to_remove None;;
  mret item.

Definition apply_zone_migrations (zone : value) : py value :=
  let migrations := [_zone_v1_to_v2; _zone_v2_to_v2p1] in
  _apply_migration zone migrations.

Definition apply_item_state_migrations (item_state : value) : py value :=
  let migrations :=
    [_item_state_v1_to_v1p5; _item_state_v1p5_to_v2; _item_state_v2_to_v2p1] in
  _apply_migration item_state migrations.
End with_version.
End StateMigration.

(** What the two zone steps do to the dictionary they are handed, as
    functions on dictionaries; [zone_v1_to_v2_run] and [zone_v2_to_v2p1_run]
    below show that the steps compute them in place. *)
Definition zone_v1_to_v2_dict (d : gmap string value) : gmap string value :=
  delete "index" (delete "id"
    (if bool_decide (is_Some (d !! "uid")) then d
     else <["uid" := from_option id VNone (d !! "title")]> d)).

Definition zone_v2_to_v2p1_dict (d : gmap string value) : gmap string value :=
  if value_in_strs (from_option id VNone (d !! "align"))
       Constants.ALLOWED_ZONE_ALIGNMENTS
  then d
  else <["align" := VStr Constants.DEFAULT_ZONE_ALIGNMENT]> d.

Definition migrated_zone (d : gmap string value) : gmap string value :=
  zone_v2_to_v2p1_dict (zone_v1_to_v2_dict d).

(** ** [str.format] with one keyword argument *)

Definition result_map {A B} (f : A → B) (r : result A) : result B :=
  match r with
  | Ok a => Ok (f a)
  | Raise e => Raise e
  end.

Definition is_digit (c : ascii) : bool :=
  let n := nat_of_ascii c in Nat.leb 48 n && Nat.leb n 57.

(** The value of a decimal digit. *)
Definition digit_value (c : ascii) : option Z :=
  if is_digit c then Some (Z.of_nat (nat_of_ascii c) - 48)%Z else None.

(** The largest [Py_ssize_t] of a 64-bit build, the bound of a positional
    index in a format string. *)
Definition PY_SSIZE_T_MAX : Z := 9223372036854775807%Z.

(** What the parser of format strings makes of the name of a replacement
    field: a positional index, not a number, or a number too long to be an
    index. *)
Inductive field_index :=
  | Index (i : Z)
  | NotAnIndex
  | TooManyDigits.

(** [get_integer] of the format-string parser of CPython 3: the digits are
    accumulated from the left, the overflow of [Py_ssize_t] is detected
    before it happens, and the first character that is not a digit ends the
    attempt.  (CPython 2.7 detects the overflow one step later,
    on [accumulator * 10 + 10], and so also refuses the last few values
    below the bound.) *)
Fixpoint get_integer_from (accumulator : Z) (s : string) : field_index :=
  match s with
  | EmptyString => Index accumulator
  | String c s' =>
      match digit_value c with
      | None => NotAnIndex
      | Some digitval =>
          if ((PY_SSIZE_T_MAX - digitval) / 10 <? accumulator)%Z
          then TooManyDigits
          else get_integer_from (accumulator * 10 + digitval)%Z s'
      end
  end.

Definition get_integer (s : string) : field_index :=
  match s with
  | EmptyString => NotAnIndex
  | _ => get_integer_from 0 s
  end.

(** Looking a replacement field up when the call has the one keyword
    argument [name] and no positional argument: a number too long raises
    ValueError, an index or an empty field (automatic numbering) finds no
    positional argument, any other field is a keyword. *)
Definition field_lookup (name arg field : string) : result string :=
  match get_integer field with
  | TooManyDigits => Raise ValueError
  | Index _ => Raise IndexError
  | NotAnIndex =>
      if bool_decide (field = EmptyString) then Raise IndexError
      else if bool_decide (field = name) then Ok arg
      else Raise KeyError
  end.

(** [tpl.format(name=arg)], [arg] already converted with [str].  [field] is
    the text of the replacement field being read, if the scan is inside
    one.  Doubled braces are the escapes of a brace; conversions ([!r]) and
    format specifications ([:>4]) occur in no template of this module and
    are not modelled. *)
Fixpoint format_from (field : option string) (name arg tpl : string)
  : result string :=
  match tpl with
  | EmptyString =>
      match field with
      | None => Ok EmptyString
      | Some _ => Raise ValueError
      end
  | String c rest =>
      match field with
      | None =>
          if bool_decide (c = "{"%char) then
            match rest with
            | String c2 rest' =>
                if bool_decide (c2 = "{"%char)
                then result_map (String "{"%char) (format_from None name arg rest')
                else format_from (Some EmptyString) name arg rest
            | EmptyString => Raise ValueError
            end
          else if bool_decide (c = "}"%char) then
            match rest with
            | String c2 rest' =>
                if bool_decide (c2 = "}"%char)
                then result_map (String "}"%char) (format_from None name arg rest')
                else Raise ValueError
            | EmptyString => Raise ValueError
            end
          else result_map (String c) (format_from None name arg rest)
      | Some f =>
          if bool_decide (c = "}"%char) then
            match field_lookup name arg f with
            | Ok v => result_map (String.append v) (format_from None name arg rest)
            | Raise e => Raise e
            end
          else if bool_decide (c = "{"%char) then Raise ValueError
          else format_from (Some (f +:+ String c EmptyString)) name arg rest
      end
  end.

Definition str_format (tpl name arg : string) : result string :=
  format_from None name arg tpl.

(** [str(number)] for an integer. *)
Definition py_str_int (number : Z) : string := pretty number.

(** ** Translation helpers and [FeedbackMessages] *)

Definition ngettext_fallback (text_singular text_plural : string) (number : Z)
  : string :=
  if bool_decide (number = 1%Z) then text_singular else text_plural.

Module FeedbackMessages.

Definition FINAL_ATTEMPT_TPL : string :=
  "Final attempt was used, highest score is {score}".
Definition MISPLACED_ITEMS_RETURNED : string :=
  "Misplaced item(s) were returned to item bank.".

(** The keyword parameter [ngettext] defaults to [ngettext_fallback] in the
    source; here the caller passes it. *)
Definition correctly_placed (number : Z) (ngettext : string → string → Z → string)
  : result string :=
  str_format
    (ngettext "Correctly placed {correct_count} item."
              "Correctly placed {correct_count} items."
              number)
    "correct_count" (py_str_int number).

Definition misplaced (number : Z) (ngettext : string → string → Z → string)
  : result string :=
  str_format
    (ngettext "Misplaced {misplaced_count} item. Misplaced item was returned to item bank."
              "Misplaced {misplaced_count} items. Misplaced items were returned to item bank."
              number)
    "misplaced_count" (py_str_int number).

Definition not_placed (number : Z) (ngettext : string → string → Z → string)
  : result string :=
  str_format
    (ngettext "Did not place {missing_count} required item."
              "Did not place {missing_count} required items."
              number)
    "missing_count" (py_str_int number).

End FeedbackMessages.

(** ** Placement engine, interaction controller and event emitter *)

(** Modelled from the spec: the placement engine, the interaction controller
    and the event emitter.  Their code (the block's handlers and its
    browser-side script) lies outside [utils.py]; the integration tests
    drive it through a browser.  The definitions of this module follow
    sections 3, 4.2, 4.3 and 4.5 of the specification. *)
Module Engine.

(** Modelled from the spec: a zone, the placement target of section 3. *)
Record Zone := {
  uid : string;
  title : string;
  maxItems : option nat;   (* absent or 0: unlimited *)
}.

(** Modelled from the spec: an item, the draggable unit of section 3. *)
Record Item := {
  id : nat;
  validZoneIds : list string;
  feedbackPositive : list string;   (* one string, or one per valid zone *)
  feedbackNegative : string;
}.

(** Modelled from the spec: the engine state.  [placement] maps an item to
    the zone it is placed in; an item without an entry is in the bank.
    [popup] is the feedback message on display, if any. *)
Record EngineState := {
  zones : list Zone;
  items : list Item;
  placement : gmap nat string;
  popup : option string;
  threshold : nat;   (* display length above which feedback is truncated *)
}.

(** Modelled from the spec: why a placement is rejected. *)
Inductive Reason := CapacityExceeded.

(** Modelled from the spec: how a command fails. *)
Inductive CommandError := UnknownEntity.

(** Modelled from the spec: the placement verdict of section 4.2. *)
Record Verdict := {
  accepted : bool;
  isCorrect : bool;
  zoneId : option string;
  reasonIfRejected : option Reason;
}.

(** Modelled from the spec: the one canonical command both controllers
    issue. *)
Inductive Command := PlaceItem (itemId : nat) (target : option string).

(** Modelled from the spec: the known zone of a [uid]. *)
Definition find_zone (st : EngineState) (z : string) : option Zone :=
  List.find (λ zn, bool_decide (uid zn = z)) (zones st).

(** Modelled from the spec: the known item of an [id]. *)
Definition find_item (st : EngineState) (i : nat) : option Item :=
  List.find (λ it, bool_decide (id it = i)) (items st).

(** Modelled from the spec: the number of items placed in [z], the moving
    item left out. *)
Definition occupancy (st : EngineState) (mover : nat) (z : string) : nat :=
  length (List.filter (λ '(i, z'), bool_decide (i ≠ mover) && bool_decide (z' = z))
            (map_to_list (placement st))).

(** Modelled from the spec: a zone is at capacity when it has a finite
    [maxItems] and that many other items are placed in it. *)
Definition at_capacity (st : EngineState) (mover : nat) (zn : Zone) : bool :=
  match maxItems zn with
  | None | Some 0 => false
  | Some m => Nat.leb m (occupancy st mover (uid zn))
  end.

(** Modelled from the spec: [isCorrect], true iff the zone is non-null and
    among the valid zones of the item. *)
Definition is_correct (it : Item) (target : option string) : bool :=
  match target with
  | Some z => bool_decide (z ∈ validZoneIds it)
  | None => false
  end.

(** Modelled from the spec: the state with its placements replaced. *)
Definition set_placement (st : EngineState) (p : gmap nat string) : EngineState :=
  {| zones := zones st; items := items st; placement := p;
     popup := popup st; threshold := threshold st |}.

(** Modelled from the spec: the state with its feedback popup replaced. *)
Definition set_popup (st : EngineState) (m : option string) : EngineState :=
  {| zones := zones st; items := items st; placement := placement st;
     popup := m; threshold := threshold st |}.

(** Modelled from the spec: [placeItem(itemId, targetZoneId | null)]. *)
Definition placeItem (st : EngineState) (itemId : nat) (target : option string)
  : CommandError + Verdict * EngineState :=
  match find_item st itemId with
  | None => inl UnknownEntity
  | Some it =>
      match target with
      | None =>
          inr ({| accepted := true; isCorrect := false; zoneId := None;
                  reasonIfRejected := None |},
               set_placement st (delete itemId (placement st)))
      | Some z =>
          match find_zone st z with
          | None => inl UnknownEntity
          | Some zn =>
              if at_capacity st itemId zn
              then inr ({| accepted := false; isCorrect := false; zoneId := None;
                           reasonIfRejected := Some CapacityExceeded |},
                        set_placement st (delete itemId (placement st)))
              else inr ({| accepted := true; isCorrect := is_correct it (Some z);
                           zoneId := Some z; reasonIfRejected := None |},
                        set_placement st (<[itemId := z]> (placement st)))
          end
      end
  end.

(** Modelled from the spec: the engine run on a command. *)
Definition execute (st : EngineState) (c : Command)
  : CommandError + Verdict * EngineState :=
  match c with
  | PlaceItem i t => placeItem st i t
  end.

(** Modelled from the spec: the states of the pointer-drag controller,
    [Idle -> Dragging(itemId) -> Idle]. *)
Inductive PointerState := PIdle | Dragging (itemId : nat).

(** Modelled from the spec: a gesture starts over an item, or the pointer
    is released over a zone ([None]: over the bank or outside any zone). *)
Inductive PointerInput :=
  | GestureStart (itemId : nat)
  | Release (zoneUnderPointer : option string).

(** Modelled from the spec: the pointer-drag controller; the release
    issues [placeItem(itemId, zoneUnderPointer | null)]. *)
Definition pointer_step (s : PointerState) (i : PointerInput)
  : PointerState * option Command :=
  match s, i with
  | PIdle, GestureStart it => (Dragging it, None)
  | Dragging it, Release z => (PIdle, Some (PlaceItem it z))
  | Dragging it, GestureStart _ => (Dragging it, None)
  | PIdle, Release _ => (PIdle, None)
  end.

(** Modelled from the spec: the keys the keyboard controller tells apart. *)
Inductive Key := Enter | Space | CtrlM | CmdM | Escape | Tab.

(** Modelled from the spec: the states of the keyboard controller,
    [Idle -> Grabbed(itemId) -> Idle].  The focus of a grabbed item is an
    index into the traversal order: the zones in order, the bank last. *)
Inductive KeyboardState := KIdle | Grabbed (itemId : nat) (focus : nat).

(** Modelled from the spec: a key pressed on an item, or on the zone or
    bank that has the focus. *)
Inductive KeyboardInput :=
  | OnItem (itemId : nat) (k : Key)
  | OnTarget (k : Key).

(** Modelled from the spec: Enter, Space, Ctrl+M and Cmd+M all activate. *)
Definition is_action_key (k : Key) : bool :=
  match k with
  | Enter | Space | CtrlM | CmdM => true
  | Escape | Tab => false
  end.

(** Modelled from the spec: what has the focus at an index of the
    traversal order: a zone, or (past the zones) the bank. *)
Definition focus_target (st : EngineState) (focus : nat) : option string :=
  uid <$> zones st !! focus.

(** Modelled from the spec: the items the keyboard controller refuses to
    grab. *)
Definition correctly_placed_item (st : EngineState) (i : nat) : bool :=
  match find_item st i with
  | Some it => is_correct it (placement st !! i)
  | None => false
  end.

(** Modelled from the spec: the keyboard controller.  An action key on an
    item that is not correctly placed grabs it; while grabbed, an action
    key issues [placeItem(itemId, focusedZoneId | null)], the cancel key
    lets go without a command, any other key moves the focus on. *)
Definition keyboard_step (st : EngineState) (s : KeyboardState) (i : KeyboardInput)
  : KeyboardState * option Command :=
  match s, i with
  | KIdle, OnItem it k =>
      if is_action_key k && negb (correctly_placed_item st it)
      then (Grabbed it 0, None) else (KIdle, None)
  | KIdle, OnTarget _ => (KIdle, None)
  | Grabbed it f, OnTarget k =>
      if is_action_key k then (KIdle, Some (PlaceItem it (focus_target st f)))
      else match k with
           | Escape => (KIdle, None)
           | _ => (Grabbed it (if Nat.ltb f (length (zones st)) then S f else 0), None)
           end
  | Grabbed it f, OnItem _ _ => (Grabbed it f, None)
  end.

(** Modelled from the spec: the gesture that ends an interaction, in either
    modality: the pointer is released over a zone or the bank, or a key is
    pressed while a zone or the bank has the focus. *)
Inductive Gesture :=
  | PointerRelease (zoneUnderPointer : option string)
  | KeyPress (k : Key) (focus : nat).

(** Modelled from the spec: the command the controller of the gesture's
    modality issues for a dragged or grabbed item. *)
Definition issue (st : EngineState) (g : Gesture) (itemId : nat)
  : option Command :=
  match g with
  | PointerRelease z => (pointer_step (Dragging itemId) (Release z)).2
  | KeyPress k f => (keyboard_step st (Grabbed itemId f) (OnTarget k)).2
  end.

(** Modelled from the spec: the gesture ends on zone [z]: a release over
    it, or an action key with the focus on it. *)
Definition ends_on (st : EngineState) (g : Gesture) (z : string) : Prop :=
  match g with
  | PointerRelease t => t = Some z
  | KeyPress k f => is_action_key k = true ∧ focus_target st f = Some z
  end.

(** Modelled from the spec: the progress figures of section 3,
    [ExerciseProgress]; they are the fields of [ItemStats] of [utils.py]. *)
Record ExerciseProgress := {
  required : nat;
  placed : nat;
  correctlyPlaced : nat;
  decoy : nat;
  decoyInBank : nat;
}.

(** Modelled from the spec: a decoy is an item without a valid zone. *)
Definition is_decoy (it : Item) : bool := bool_decide (validZoneIds it = []).

(** Modelled from the spec: the number of items with a property. *)
Definition count_items (P : Item → bool) (st : EngineState) : nat :=
  length (List.filter P (items st)).

(** Modelled from the spec: [computeProgress()], a function of the
    placements. *)
Definition computeProgress (st : EngineState) : ExerciseProgress :=
  {| required := count_items (λ it, negb (is_decoy it)) st;
     placed := count_items (λ it, bool_decide (is_Some (placement st !! id it))) st;
     correctlyPlaced := count_items (λ it, is_correct it (placement st !! id it)) st;
     decoy := count_items is_decoy st;
     decoyInBank :=
       count_items (λ it, is_decoy it && bool_decide (placement st !! id it = None)) st |}.

(** Modelled from the spec: the score, a ratio between 0 and 1 derived from
    the progress figures, 0 for an exercise without items.  Section 3 writes
    it [correctlyPlaced / required]; the grade [EventsFiredTest.scenarios]
    asserts after one correct placement among four required items and one
    decoy is 2/5, which counts a decoy left in the bank as right and every
    item in the total.  The ratio taken here is the one the test pins:
    [(correctlyPlaced + decoyInBank) / (required + decoy)]. *)
Definition score (st : EngineState) : Q :=
  let p := computeProgress st in
  match (required p + decoy p)%nat with
  | 0 => 0%Q
  | S d => Qmake (Z.of_nat (correctlyPlaced p + decoyInBank p)) (Pos.of_succ_nat d)
  end.

(** Modelled from the spec: the analytics events and what they carry. *)
Inductive Event :=
  | Loaded
  | ItemPickedUp (item_id : nat)
  | Grade (value max_value : Q)
  | ItemDropped (is_correct : bool) (item_id : nat) (location location_id : string)
  | FeedbackOpened (content : string) (truncated : bool)
  | FeedbackClosed (manually : bool) (content : string) (truncated : bool).

(** Modelled from the spec: the wire name of an event, as the integration
    tests spell it. *)
Definition event_name (e : Event) : string :=
  match e with
  | Loaded => "edx.drag_and_drop_v2.loaded"
  | ItemPickedUp _ => "edx.drag_and_drop_v2.item.picked_up"
  | Grade _ _ => "grade"
  | ItemDropped _ _ _ _ => "edx.drag_and_drop_v2.item.dropped"
  | FeedbackOpened _ _ => "edx.drag_and_drop_v2.feedback.opened"
  | FeedbackClosed _ _ _ => "edx.drag_and_drop_v2.feedback.closed"
  end.

(** Modelled from the spec: the index of the matching zone within
    [validZoneIds]. *)
Fixpoint index_of (z : string) (l : list string) : nat :=
  match l with
  | [] => 0
  | x :: l' => if bool_decide (x = z) then 0 else S (index_of z l')
  end.

(** Modelled from the spec: the feedback of a placement.  A single positive
    string serves every valid zone; a list is read at the index of the
    matching zone. *)
Definition feedback_for (it : Item) (z : string) : string :=
  if is_correct it (Some z) then
    match feedbackPositive it with
    | [s] => s
    | l => nth (index_of z (validZoneIds it)) l EmptyString
    end
  else feedbackNegative it.

(** Modelled from the spec: the [truncated] flag, set when the content is
    longer than the display threshold. *)
Definition truncated_at (st : EngineState) (content : string) : bool :=
  Nat.ltb (threshold st) (String.length content).

(** Modelled from the spec: the user-facing message of a placement rejected
    for capacity, in the words [TestMaxItemsPerZone] reads in the popup. *)
Definition capacity_message : string :=
  "You cannot add any more items to this zone.".

(** Modelled from the spec: a grade event whenever the computed score
    changes, with the score as its value out of 1. *)
Definition grade_events (before after : EngineState) : list Event :=
  if Qeq_bool (score before) (score after) then [] else [Grade (score after) 1].

(** Modelled from the spec: closing the feedback on display publishes
    feedback.closed with its content; with no feedback on display nothing
    is published. *)
Definition close_events (st : EngineState) (manually : bool) : list Event :=
  match popup st with
  | Some content => [FeedbackClosed manually content (truncated_at st content)]
  | None => []
  end.

(** Modelled from the spec: the engine in use.  Besides the placements it
    knows whether it has been initialised and which item, if any, has been
    picked up and not yet dropped. *)
Record Session := {
  engine : EngineState;
  loaded : bool;
  held : option nat;
}.

(** Modelled from the spec: what drives the engine: its initialisation, an
    item being picked up, the item held being dropped on a zone or on the
    bank, the user dismissing the feedback. *)
Inductive Input :=
  | Initialize
  | PickUp (itemId : nat)
  | Drop (target : option string)
  | Dismiss.

(** Modelled from the spec: the events of a drop of item [i].  The grade
    comes first, whenever the drop changes the score, whatever the outcome
    of the drop.  A placement accepted into a zone then publishes
    item.dropped and opens its feedback; a rejected one opens the capacity
    message; a return to the bank opens none.  Feedback that opens while
    another is on display replaces it: the old one is closed first, not
    manually. *)
Definition drop (st : EngineState) (i : nat) (target : option string)
  : list Event * EngineState :=
  match placeItem st i target with
  | inl _ => ([], st)
  | inr (v, st') =>
      let grade := grade_events st st' in
      if accepted v then
        match find_item st i, target ≫= find_zone st with
        | Some it, Some zn =>
            let content := feedback_for it (uid zn) in
            ((grade ++ [ItemDropped (isCorrect v) i (title zn) (uid zn)] ++
              close_events st false ++
              [FeedbackOpened content (truncated_at st content)])%list,
             set_popup st' (Some content))
        | _, _ => (grade, st')
        end
      else
        ((grade ++ close_events st false ++
          [FeedbackOpened capacity_message (truncated_at st capacity_message)])%list,
         set_popup st' (Some capacity_message))
  end.

(** Modelled from the spec: one step of the engine and the events it
    publishes.  loaded is published by the initialisation, once; before it
    nothing is picked up.  Picking an item up dismisses the feedback on
    display (not manually) and publishes item.picked_up; only the item held
    can be dropped.  An input that does not apply publishes nothing and
    changes nothing. *)
Definition step (s : Session) (i : Input) : list Event * Session :=
  let st := engine s in
  match i with
  | Initialize =>
      if loaded s then ([], s)
      else ([Loaded], {| engine := st; loaded := true; held := None |})
  | PickUp i =>
      if loaded s && bool_decide (held s = None)
         && bool_decide (is_Some (find_item st i))
      then ((close_events st false ++ [ItemPickedUp i])%list,
            {| engine := set_popup st None; loaded := loaded s; held := Some i |})
      else ([], s)
  | Drop target =>
      match held s with
      | None => ([], s)
      | Some i =>
          let r := drop st i target in
          (r.1, {| engine := r.2; loaded := loaded s; held := None |})
      end
  | Dismiss =>
      (close_events st true,
       {| engine := set_popup st None; loaded := loaded s; held := held s |})
  end.

(** Modelled from the spec: the events of a sequence of inputs, in the
    order they are published, and the session they leave. *)
Fixpoint run (s : Session) (ins : list Input) : list Event * Session :=
  match ins with
  | [] => ([], s)
  | i :: ins' =>
      let r := step s i in
      let r' := run r.2 ins' in
      ((r.1 ++ r'.1)%list, r'.2)
  end.

(** Modelled from the spec: the session [loadExercise] hands out: the
    exercise with its prior placements, no feedback on display, not yet
    initialised, nothing picked up. *)
Definition start (st : EngineState) : Session :=
  {| engine := set_popup st None; loaded := false; held := None |}.

End Engine.

(** The order [EventsFiredTest.scenarios] of the integration tests asserts,
    by event name. *)
Module EventsFiredTest.
Definition scenarios : list string :=
  [ "edx.drag_and_drop_v2.loaded";
    "edx.drag_and_drop_v2.item.picked_up";
    "grade";
    "edx.drag_and_drop_v2.item.dropped";
    "edx.drag_and_drop_v2.feedback.opened";
    "edx.drag_and_drop_v2.feedback.closed" ].
End EventsFiredTest.

(** ** Inputs taken from the docstrings and the specification *)

(** [{'id': 1, 'index': 2, 'title': "Zone", 'align': "none"}] *)
Definition legacy_zone : gmap string value :=
  {[ "id" := VInt 1; "index" := VInt 2; "title" := VStr "Zone";
     "align" := VStr "none" ]}.

(** [{'zone': 'Zone', 'correct': True, 'top': '100px', 'left': '120px',
      'absolute': True}], the first input of the docstring of
    [_item_state_v2_to_v2p1]. *)
Definition absolute_item_state : gmap string value :=
  {[ "zone" := VStr "Zone"; "correct" := VBool true; "top" := VStr "100px";
     "left" := VStr "120px"; "absolute" := VBool true ]}.

(** A store holding one dictionary, at address 1. *)
Definition store_of (d : gmap string value) : gmap positive object :=
  {[ 1%positive := ODict d ]}.

(** [('100px', '120px')], the input of the docstring of
    [_item_state_v1_to_v1p5]. *)
Definition legacy_pair : value := VTuple [VStr "100px"; VStr "120px"].

(** The capacity scenario of the specification: zone "z" with [maxItems] 2
    holds items 0 and 1, item 2 is in the bank. *)
Definition full_zone_state : Engine.EngineState :=
  {| Engine.zones := [ {| Engine.uid := "z"; Engine.title := "Z";
                          Engine.maxItems := Some 2 |} ];
     Engine.items :=
       [ {| Engine.id := 0; Engine.validZoneIds := ["z"];
            Engine.feedbackPositive := ["Yes"]; Engine.feedbackNegative := "No" |};
         {| Engine.id := 1; Engine.validZoneIds := ["z"];
            Engine.feedbackPositive := ["Yes"]; Engine.feedbackNegative := "No" |};
         {| Engine.id := 2; Engine.validZoneIds := ["z"];
            Engine.feedbackPositive := ["Yes"]; Engine.feedbackNegative := "No" |} ];
     Engine.placement := {[ 0 := "z"; 1 := "z" ]};
     Engine.popup := None;
     Engine.threshold := 100 |}.

(** The exercise of [DefaultDataTestMixin]: three zones, items 0 to 2 with
    one zone each, item 3 right in any zone, item 4 a decoy.  The constants
    the test imports from [default_data] are spelled out. *)
Definition default_zones : list Engine.Zone :=
  [ {| Engine.uid := "top"; Engine.title := "The Top Zone";
       Engine.maxItems := None |};
    {| Engine.uid := "middle"; Engine.title := "The Middle Zone";
       Engine.maxItems := None |};
    {| Engine.uid := "bottom"; Engine.title := "The Bottom Zone";
       Engine.maxItems := None |} ].

Definition ITEM_INCORRECT_FEEDBACK : string :=
  "No, this item does not belong here. Try again.".

Definition default_items : list Engine.Item :=
  [ {| Engine.id := 0; Engine.validZoneIds := ["top"];
       Engine.feedbackPositive := ["Correct! This one belongs to The Top Zone."];
       Engine.feedbackNegative := ITEM_INCORRECT_FEEDBACK |};
    {| Engine.id := 1; Engine.validZoneIds := ["middle"];
       Engine.feedbackPositive := ["Correct! This one belongs to The Middle Zone."];
       Engine.feedbackNegative := ITEM_INCORRECT_FEEDBACK |};
    {| Engine.id := 2; Engine.validZoneIds := ["bottom"];
       Engine.feedbackPositive := ["Correct! This one belongs to The Bottom Zone."];
       Engine.feedbackNegative := ITEM_INCORRECT_FEEDBACK |};
    {| Engine.id := 3; Engine.validZoneIds := ["middle"; "top"; "bottom"];
       Engine.feedbackPositive := ["Of course it goes here! It goes anywhere!"];
       Engine.feedbackNegative := ITEM_INCORRECT_FEEDBACK |};
    {| Engine.id := 4; Engine.validZoneIds := [];
       Engine.feedbackPositive := [];
       Engine.feedbackNegative := "You silly, there are no zones for this one." |} ].

Definition default_exercise : Engine.EngineState :=
  {| Engine.zones := default_zones;
     Engine.items := default_items;
     Engine.placement := ∅;
     Engine.popup := None;
     Engine.threshold := 100 |}.

(** A migration leaves the record it is given alone: the call returns a
    reference other than the argument, and every object of the store the
    call started from, the argument among them, is as it was. *)
Definition leaves_input_unchanged (f : value → py value)
    (h : gmap positive object) (l : positive) : Prop :=
  ∃ l' h', f (VRef l) h = (Ok (VRef l'), h') ∧ l' ≠ l ∧ h !! l' = None ∧
           h' !! l = h !! l ∧ ∀ l0 o, h !! l0 = Some o → h' !! l0 = Some o.

(** ** Helpers of the integration tests *)

(** [ItemDefinition] of [tests/integration/test_interaction.py].  The test
    data put a string, a list or [None] in the title and feedback fields,
    which stay Python values here; [zone_ids] is always a list of zone
    ids. *)
Record ItemDefinition := {
  item_id : Z;
  zone_ids : list string;
  zone_title : value;
  feedback_positive : value;
  feedback_negative : value;
}.

Module InteractionTestBase.

(** The dict comprehensions build a new dictionary and mutate nothing, so
    the two helpers are functions from [items_map] to a dictionary. *)
Definition _get_items_with_zone (items_map : gmap Z ItemDefinition)
  : gmap Z ItemDefinition :=
  filter (λ kv, zone_ids kv.2 ≠ []) items_map.

Definition _get_items_without_zone (items_map : gmap Z ItemDefinition)
  : gmap Z ItemDefinition :=
  filter (λ kv, zone_ids kv.2 = []) items_map.

End InteractionTestBase.

(** ** Vocabulary of the further properties *)

(** The computation returns, and what it returns is a reference to the
    dictionary [d]. *)
Definition returns_dict (m : py value) (h : gmap positive object)
    (d : gmap string value) : Prop :=
  ∃ r h', m h = (Ok r, h') ∧ deref_dict h' r = Some d.

(** The text has neither an opening nor a closing brace. *)
Fixpoint brace_free (s : string) : bool :=
  match s with
  | EmptyString => true
  | String c s' =>
      negb (bool_decide (c = "{"%char)) && negb (bool_decide (c = "}"%char))
      && brace_free s'
  end.

(** A zone in the current format: it has a [uid], neither [id] nor [index],
    and an alignment among the allowed ones. *)
Definition current_zone (d : gmap string value) : Prop :=
  is_Some (d !! "uid") ∧ d !! "id" = None ∧ d !! "index" = None ∧
  ∃ a, d !! "align" = Some (VStr a) ∧ a ∈ Constants.ALLOWED_ZONE_ALIGNMENTS.

(** [{'uid': 'zone-1', 'title': 'Zone', 'id': 7, 'align': 'left'}] *)
Definition zone_with_uid : gmap string value :=
  {[ "uid" := VStr "zone-1"; "title" := VStr "Zone"; "id" := VInt 7;
     "align" := VStr "left" ]}.

(** [{'uid': 'zone-1', 'title': 'Zone', 'align': 'left'}] *)
Definition zone_v2p1 : gmap string value :=
  {[ "uid" := VStr "zone-1"; "title" := VStr "Zone"; "align" := VStr "left" ]}.

(** A replacement field that is a plain keyword, that is an identifier: a
    letter or an underscore, then letters, digits and underscores. *)
Definition is_name_char (c : ascii) : bool :=
  let n := nat_of_ascii c in
  (Nat.leb 97 n && Nat.leb n 122) || (Nat.leb 65 n && Nat.leb n 90)
  || (Nat.leb 48 n && Nat.leb n 57) || Nat.eqb n 95.

Fixpoint name_chars (s : string) : bool :=
  match s with
  | EmptyString => true
  | String c s' => is_name_char c && name_chars s'
  end.

Definition plain_keyword (s : string) : bool :=
  match s with
  | EmptyString => false
  | String c _ => negb (is_digit c) && name_chars s
  end.

(** ** Decimal numerals *)

(** The number a string of decimal digits denotes, read from the left with
    [acc] for the digits already read; [None] when a character is not a
    digit. *)
Fixpoint digits_value (acc : Z) (s : string) : option Z :=
  match s with
  | EmptyString => Some acc
  | String c s' =>
      match digit_value c with
      | Some d => digits_value (acc * 10 + d)%Z s'
      | None => None
      end
  end.

(** The integer a decimal numeral denotes: digits, or a minus sign and
    digits. *)
Definition decimal_value (s : string) : option Z :=
  match s with
  | EmptyString => None
  | String c s' =>
      if bool_decide (c = "-"%char)
      then match s' with
           | EmptyString => None
           | _ => Z.opp <$> digits_value 0 s'
           end
      else digits_value 0 s
  end.

(** The numeral is the one [str] prints: no leading zero except in "0"
    itself, and no "-0". *)
Definition canonical_decimal (s : string) : bool :=
  match s with
  | EmptyString => false
  | String c s' =>
      if bool_decide (c = "-"%char)
      then match s' with
           | EmptyString => false
           | String d _ => negb (bool_decide (d = "0"%char))
           end
      else negb (bool_decide (c = "0"%char)) || bool_decide (s' = EmptyString)
  end.

(** * Properties *)

Import StateMigration.

Ltac py_unfold := unfold mbind, py_bind, bind, mret, py_ret, ret, pass, raise.

(** ** The store *)

Lemma fresh_unused (h : gmap positive object) : h !! fresh (dom h) = None.
Proof. apply not_elem_of_dom, is_fresh. Qed.

Lemma py_copy_dict pv (h : gmap positive object) l d :
  h !! l = Some (ODict d) →
  py_copy pv (VRef l) h
  = (Ok (VRef (fresh (dom h))), <[fresh (dom h) := ODict d]> h).
Proof. intros H. simpl. by rewrite H. Qed.

(** ** Zone migrations on a dictionary *)

Lemma zone_v1_to_v2_run (h : gmap positive object) l d :
  h !! l = Some (ODict d) →
  _zone_v1_to_v2 (VRef l) h
  = (Ok (VRef l), <[l := ODict (zone_v1_to_v2_dict d)]> h).
Proof.
  intros H. unfold _zone_v1_to_v2, zone_v1_to_v2_dict. py_unfold. simpl.
  rewrite H. destruct (bool_decide (is_Some (d !! "uid"))); simpl;
    repeat (first [rewrite H | rewrite lookup_insert_eq]; simpl);
    by rewrite !insert_insert_eq.
Qed.

Lemma zone_v2_to_v2p1_run (h : gmap positive object) l d :
  h !! l = Some (ODict d) →
  _zone_v2_to_v2p1 (VRef l) h
  = (Ok (VRef l), <[l := ODict (zone_v2_to_v2p1_dict d)]> h).
Proof.
  intros H. unfold _zone_v2_to_v2p1, zone_v2_to_v2p1_dict. py_unfold.
  unfold py_get. rewrite H.
  destruct (value_in_strs _ _); simpl.
  - by rewrite insert_id.
  - by rewrite H.
Qed.

Lemma apply_zone_migrations_run pv (h : gmap positive object) l d :
  h !! l = Some (ODict d) →
  apply_zone_migrations pv (VRef l) h
  = (Ok (VRef (fresh (dom h))), <[fresh (dom h) := ODict (migrated_zone d)]> h).
Proof.
  intros H. unfold apply_zone_migrations, _apply_migration.
  unfold mbind at 1. unfold py_bind, bind.
  rewrite (py_copy_dict _ _ _ _ H). simpl. py_unfold.
  rewrite (zone_v1_to_v2_run _ _ d) by apply lookup_insert_eq.
  rewrite (zone_v2_to_v2p1_run _ _ (zone_v1_to_v2_dict d)) by apply lookup_insert_eq.
  by rewrite !insert_insert_eq.
Qed.

Lemma value_in_strs_iff v (lst : list string) :
  value_in_strs v lst = true ↔ ∃ a, v = VStr a ∧ a ∈ lst.
Proof.
  unfold value_in_strs. rewrite existsb_exists. split.
  - intros (a & Hin & Heq). destruct v; try discriminate. simpl in Heq.
    apply bool_decide_eq_true in Heq as ->. exists a. split; [done|].
    by apply list_elem_of_In.
  - intros (a & -> & Hin). exists a. split; [by apply list_elem_of_In|].
    simpl. by apply bool_decide_eq_true.
Qed.

Lemma zone_v1_to_v2_dict_has_uid d : is_Some (zone_v1_to_v2_dict d !! "uid").
Proof.
  unfold zone_v1_to_v2_dict. rewrite !lookup_delete_ne by done.
  case_bool_decide; [done|]. rewrite lookup_insert_eq. eauto.
Qed.

Lemma zone_v1_to_v2_dict_id d : zone_v1_to_v2_dict d !! "id" = None.
Proof.
  unfold zone_v1_to_v2_dict. rewrite lookup_delete_ne by done.
  apply lookup_delete_eq.
Qed.

Lemma zone_v1_to_v2_dict_index d : zone_v1_to_v2_dict d !! "index" = None.
Proof. unfold zone_v1_to_v2_dict. apply lookup_delete_eq. Qed.

Lemma zone_v1_to_v2_dict_other d k :
  k ≠ "uid" → k ≠ "id" → k ≠ "index" →
  zone_v1_to_v2_dict d !! k = d !! k.
Proof.
  intros. unfold zone_v1_to_v2_dict. rewrite !lookup_delete_ne by done.
  case_bool_decide; [done|]. by rewrite lookup_insert_ne.
Qed.

Lemma zone_v2_to_v2p1_dict_other d k :
  k ≠ "align" → zone_v2_to_v2p1_dict d !! k = d !! k.
Proof.
  intros. unfold zone_v2_to_v2p1_dict.
  destruct (value_in_strs _ _); [done|]. by rewrite lookup_insert_ne.
Qed.

Lemma zone_v2_to_v2p1_dict_aligned d :
  value_in_strs (default VNone (zone_v2_to_v2p1_dict d !! "align"))
    Constants.ALLOWED_ZONE_ALIGNMENTS = true.
Proof.
  unfold zone_v2_to_v2p1_dict.
  destruct (value_in_strs (default VNone (d !! "align")) _) eqn:E; [done|].
  by rewrite lookup_insert_eq.
Qed.

(** A zone that went through the two steps is a fixed point of both. *)
Lemma migrated_zone_idempotent d : migrated_zone (migrated_zone d) = migrated_zone d.
Proof.
  unfold migrated_zone.
  set (d1 := zone_v2_to_v2p1_dict (zone_v1_to_v2_dict d)).
  assert (zone_v1_to_v2_dict d1 = d1) as ->.
  { unfold zone_v1_to_v2_dict at 1.
    rewrite bool_decide_eq_true_2.
    - rewrite (delete_id d1 "id"), delete_id; [done| |];
        unfold d1; rewrite zone_v2_to_v2p1_dict_other by done;
        auto using zone_v1_to_v2_dict_id, zone_v1_to_v2_dict_index.
    - unfold d1. rewrite zone_v2_to_v2p1_dict_other by done.
      apply zone_v1_to_v2_dict_has_uid. }
  unfold zone_v2_to_v2p1_dict at 1.
  unfold d1 at 1. by rewrite zone_v2_to_v2p1_dict_aligned.
Qed.

(** ** Item-state migrations *)

Lemma item_state_v1_to_v1p5_dict (h : gmap positive object) l d :
  h !! l = Some (ODict d) →
  _item_state_v1_to_v1p5 (VRef l) h = (Ok (VRef l), h).
Proof.
  intros H. unfold _item_state_v1_to_v1p5. py_unfold. simpl. by rewrite H.
Qed.

Lemma item_state_v1_to_v1p5_pair (h : gmap positive object) t l :
  _item_state_v1_to_v1p5 (VTuple [t; l]) h
  = (Ok (VRef (fresh (dom h))),
     <[fresh (dom h) := ODict {[ "top" := t; "left" := l ]}]> h).
Proof. reflexivity. Qed.

(** The last step returns its argument and leaves the store as it is,
    whatever the argument. *)
Lemma item_state_v2_to_v2p1_noop item (h : gmap positive object) :
  _item_state_v2_to_v2p1 item h = (Ok item, h).
Proof. reflexivity. Qed.

Lemma apply_item_state_migrations_dict pv (h : gmap positive object) l d :
  h !! l = Some (ODict d) →
  apply_item_state_migrations pv (VRef l) h
  = (Ok (VRef (fresh (dom h))), <[fresh (dom h) := ODict d]> h).
Proof.
  intros H. unfold apply_item_state_migrations, _apply_migration.
  unfold mbind at 1. unfold py_bind, bind.
  rewrite (py_copy_dict _ _ _ _ H). simpl. py_unfold.
  rewrite (item_state_v1_to_v1p5_dict _ _ d) by apply lookup_insert_eq.
  reflexivity.
Qed.

Lemma apply_item_state_migrations_immutable pv (h : gmap positive object) v :
  (∀ l, v ≠ VRef l) →
  apply_item_state_migrations pv v h = (Raise AttributeError, h).
Proof. intros Hv. destruct v; try reflexivity. by destruct (Hv l). Qed.

(** Under Python 3 a list has [copy], and a two-element list goes through;
    the record built from it keeps [top] and [left]. *)
Lemma apply_item_state_migrations_list_py3 (h : gmap positive object) l t lf :
  h !! l = Some (OList [t; lf]) →
  ∃ l1 l2 h', apply_item_state_migrations Py3 (VRef l) h = (Ok (VRef l2), h') ∧
    h' = <[l2 := ODict {[ "top" := t; "left" := lf ]}]> (<[l1 := OList [t; lf]]> h) ∧
    h !! l1 = None ∧ (<[l1 := OList [t; lf]]> h) !! l2 = None.
Proof.
  intros H. exists (fresh (dom h)), (fresh (dom (<[fresh (dom h) := OList [t; lf]]> h))).
  eexists. split; [|split; [reflexivity|split; apply fresh_unused]].
  unfold apply_item_state_migrations, _apply_migration.
  unfold mbind at 1. unfold py_bind, bind. simpl. rewrite H. simpl.
  py_unfold. unfold _item_state_v1_to_v1p5. py_unfold. simpl.
  rewrite lookup_insert_eq. simpl. rewrite lookup_insert_eq. simpl.
  rewrite lookup_insert_eq. reflexivity.
Qed.

Lemma apply_item_state_migrations_list_py2 (h : gmap positive object) l vs :
  h !! l = Some (OList vs) →
  apply_item_state_migrations Py2 (VRef l) h = (Raise AttributeError, h).
Proof.
  intros H. unfold apply_item_state_migrations, _apply_migration.
  unfold mbind at 1. unfold py_bind, bind. simpl. by rewrite H.
Qed.

(** ** The migration pipelines *)

(** C1, at the docstring's own input.  [_item_state_v2_to_v2p1] documents
    that [{'zone': 'Zone', 'correct': True, 'top': '100px', 'left': '120px',
    'absolute': True}] comes out as [{'zone': 'Zone', 'correct': True}];
    the pipeline returns a record that still has [top], [left] and
    [absolute], because [del[attribute]] unbinds the loop variable and
    does not touch [item]. *)
Theorem item_state_legacy_fields_survive pv :
  ∃ l' h' d',
    apply_item_state_migrations pv (VRef 1) (store_of absolute_item_state)
    = (Ok (VRef l'), h') ∧
    deref_dict h' (VRef l') = Some d' ∧
    d' !! "top" = Some (VStr "100px") ∧
    d' !! "left" = Some (VStr "120px") ∧
    d' !! "absolute" = Some (VBool true).
Proof.
  eexists _, _, absolute_item_state. split.
  - by apply (apply_item_state_migrations_dict pv _ 1 absolute_item_state).
  - simpl. rewrite lookup_insert_eq. repeat split; reflexivity.
Qed.

(** C4: a zone record without [uid] comes out of the zone pipeline with
    [uid] set to the value of [title] ([None] when there is no title),
    without [id] and [index], with an [align] among left, right, center kept
    and any other or missing [align] replaced by center, and with every
    other key as it was. *)
Theorem zone_migration_legacy pv (h : gmap positive object) l d :
  h !! l = Some (ODict d) →
  d !! "uid" = None →
  ∃ l' h' d',
    apply_zone_migrations pv (VRef l) h = (Ok (VRef l'), h') ∧
    deref_dict h' (VRef l') = Some d' ∧
    d' !! "uid" = Some (default VNone (d !! "title")) ∧
    d' !! "id" = None ∧
    d' !! "index" = None ∧
    (∀ a, d !! "align" = Some (VStr a) →
          a ∈ Constants.ALLOWED_ZONE_ALIGNMENTS →
          d' !! "align" = Some (VStr a)) ∧
    ((∀ a, a ∈ Constants.ALLOWED_ZONE_ALIGNMENTS →
           d !! "align" ≠ Some (VStr a)) →
     d' !! "align" = Some (VStr "center")) ∧
    (∀ k, k ≠ "uid" → k ≠ "id" → k ≠ "index" → k ≠ "align" →
          d' !! k = d !! k).
Proof.
  intros H Huid. eexists _, _, (migrated_zone d).
  split; [by apply apply_zone_migrations_run|].
  split; [simpl; by rewrite lookup_insert_eq|].
  unfold migrated_zone.
  assert (Halign : zone_v1_to_v2_dict d !! "align" = d !! "align")
    by (by apply zone_v1_to_v2_dict_other).
  repeat split.
  - rewrite zone_v2_to_v2p1_dict_other by done.
    unfold zone_v1_to_v2_dict. rewrite !lookup_delete_ne by done.
    rewrite bool_decide_eq_false_2 by (rewrite Huid; by intros [? ?]).
    apply lookup_insert_eq.
  - rewrite zone_v2_to_v2p1_dict_other by done. apply zone_v1_to_v2_dict_id.
  - rewrite zone_v2_to_v2p1_dict_other by done. apply zone_v1_to_v2_dict_index.
  - intros a Ha Hin. unfold zone_v2_to_v2p1_dict. rewrite Halign, Ha.
    cbn [from_option id].
    assert (value_in_strs (VStr a) Constants.ALLOWED_ZONE_ALIGNMENTS = true) as ->
      by (apply value_in_strs_iff; eauto).
    by rewrite Halign.
  - intros Hout. unfold zone_v2_to_v2p1_dict. rewrite Halign.
    destruct (value_in_strs _ _) eqn:E.
    + apply value_in_strs_iff in E as (a & Ha & Hin).
      destruct (d !! "align") as [v|] eqn:Hd; simpl in Ha; [|done].
      subst v. by destruct (Hout a Hin).
    + apply lookup_insert_eq.
  - intros k ????. rewrite zone_v2_to_v2p1_dict_other by done.
    by apply zone_v1_to_v2_dict_other.
Qed.

(** The legacy zone of the specification's scenario:
    [{id: 1, index: 2, title: "Zone", align: "none"}] yields [uid] "Zone",
    [align] "center" and neither [id] nor [index]. *)
Lemma zone_migration_legacy_witness :
  ∃ l' h' d',
    apply_zone_migrations Py2 (VRef 1) (store_of legacy_zone) = (Ok (VRef l'), h') ∧
    deref_dict h' (VRef l') = Some d' ∧
    d' !! "uid" = Some (VStr "Zone") ∧
    d' !! "align" = Some (VStr "center") ∧
    d' !! "id" = None ∧
    d' !! "index" = None.
Proof.
  destruct (zone_migration_legacy Py2 (store_of legacy_zone) 1 legacy_zone
              eq_refl eq_refl)
    as (l' & h' & d' & Hrun & Hd & Huid & Hid & Hidx & _ & Hal & _).
  exists l', h', d'. repeat split; try assumption.
  apply Hal. intros a Hin Ha. vm_compute in Ha.
  injection Ha as <-. vm_compute in Hin.
  repeat (apply elem_of_cons in Hin as [Hin|Hin]; [discriminate|]).
  by apply elem_of_nil in Hin.
Defined.

(** C5: on a zone record the zone pipeline is idempotent: run on its own
    output it succeeds again and returns a record equal to that output. *)
Theorem zone_migration_idempotent pv (h : gmap positive object) l d :
  h !! l = Some (ODict d) →
  ∃ l1 h1 l2 h2 d1,
    apply_zone_migrations pv (VRef l) h = (Ok (VRef l1), h1) ∧
    deref_dict h1 (VRef l1) = Some d1 ∧
    apply_zone_migrations pv (VRef l1) h1 = (Ok (VRef l2), h2) ∧
    deref_dict h2 (VRef l2) = Some d1.
Proof.
  intros H.
  set (l1 := fresh (dom h)).
  set (h1 := <[l1 := ODict (migrated_zone d)]> h).
  assert (H1 : h1 !! l1 = Some (ODict (migrated_zone d)))
    by apply lookup_insert_eq.
  exists l1, h1, (fresh (dom h1)), (<[fresh (dom h1) := ODict (migrated_zone d)]> h1),
    (migrated_zone d).
  split; [by apply apply_zone_migrations_run|].
  split; [simpl; by rewrite H1|].
  split.
  - rewrite (apply_zone_migrations_run pv h1 l1 (migrated_zone d) H1).
    by rewrite migrated_zone_idempotent.
  - simpl. by rewrite lookup_insert_eq.
Qed.

Lemma zone_migration_idempotent_witness :
  ∃ l1 h1 l2 h2 d1,
    apply_zone_migrations Py3 (VRef 1) (store_of legacy_zone) = (Ok (VRef l1), h1) ∧
    deref_dict h1 (VRef l1) = Some d1 ∧
    apply_zone_migrations Py3 (VRef l1) h1 = (Ok (VRef l2), h2) ∧
    deref_dict h2 (VRef l2) = Some d1.
Proof.
  apply (zone_migration_idempotent Py3 (store_of legacy_zone) 1 legacy_zone).
  reflexivity.
Defined.

(** C10: on a record the whole item-state pipeline is the identity: it
    succeeds, and the record it returns, a fresh copy, has exactly the
    keys and values of the input, the legacy ones included. *)
Theorem item_state_migration_identity_on_dict pv (h : gmap positive object) l d :
  h !! l = Some (ODict d) →
  ∃ l' h',
    apply_item_state_migrations pv (VRef l) h = (Ok (VRef l'), h') ∧
    h !! l' = None ∧
    deref_dict h' (VRef l') = Some d.
Proof.
  intros H. eexists _, _.
  split; [by apply apply_item_state_migrations_dict|].
  split; [apply fresh_unused|].
  simpl. by rewrite lookup_insert_eq.
Qed.

Lemma item_state_migration_identity_on_dict_witness :
  ∃ l' h',
    apply_item_state_migrations Py2 (VRef 1) (store_of absolute_item_state)
    = (Ok (VRef l'), h') ∧
    store_of absolute_item_state !! l' = None ∧
    deref_dict h' (VRef l') = Some absolute_item_state.
Proof.
  apply (item_state_migration_identity_on_dict Py2 (store_of absolute_item_state) 1).
  reflexivity.
Defined.

(** C6: on a record the item-state pipeline is idempotent: it succeeds,
    and run on its own output it succeeds again with a record equal to that
    output. *)
Theorem item_state_migration_idempotent pv (h : gmap positive object) l d :
  h !! l = Some (ODict d) →
  ∃ l1 h1 l2 h2 d1,
    apply_item_state_migrations pv (VRef l) h = (Ok (VRef l1), h1) ∧
    deref_dict h1 (VRef l1) = Some d1 ∧
    apply_item_state_migrations pv (VRef l1) h1 = (Ok (VRef l2), h2) ∧
    deref_dict h2 (VRef l2) = Some d1.
Proof.
  intros H.
  set (l1 := fresh (dom h)).
  set (h1 := <[l1 := ODict d]> h).
  assert (H1 : h1 !! l1 = Some (ODict d)) by apply lookup_insert_eq.
  exists l1, h1, (fresh (dom h1)), (<[fresh (dom h1) := ODict d]> h1), d.
  split; [by apply apply_item_state_migrations_dict|].
  split; [simpl; by rewrite H1|].
  split; [by apply apply_item_state_migrations_dict|].
  simpl. by rewrite lookup_insert_eq.
Qed.

Lemma item_state_migration_idempotent_witness :
  ∃ l1 h1 l2 h2 d1,
    apply_item_state_migrations Py2 (VRef 1) (store_of absolute_item_state)
    = (Ok (VRef l1), h1) ∧
    deref_dict h1 (VRef l1) = Some d1 ∧
    apply_item_state_migrations Py2 (VRef l1) h1 = (Ok (VRef l2), h2) ∧
    deref_dict h2 (VRef l2) = Some d1.
Proof.
  apply (item_state_migration_idempotent Py2 (store_of absolute_item_state) 1
           absolute_item_state).
  reflexivity.
Defined.

(** The same holds for any input on which the first run succeeds, a Python 3
    list included: the output is a record, and a second run returns an
    equal one. *)
Lemma item_state_migration_idempotent_any pv (h : gmap positive object) v r h1 :
  apply_item_state_migrations pv v h = (Ok r, h1) →
  ∃ d1 r2 h2,
    deref_dict h1 r = Some d1 ∧
    apply_item_state_migrations pv r h1 = (Ok r2, h2) ∧
    deref_dict h2 r2 = Some d1.
Proof.
  assert (Hdict : ∀ (h1 : gmap positive object) l1 d1,
             h1 !! l1 = Some (ODict d1) →
             ∃ d r2 h2, deref_dict h1 (VRef l1) = Some d ∧
               apply_item_state_migrations pv (VRef l1) h1 = (Ok r2, h2) ∧
               deref_dict h2 r2 = Some d).
  { intros h' l1 d1 H1. eexists d1, _, _.
    split; [simpl; by rewrite H1|].
    split; [by apply apply_item_state_migrations_dict|].
    simpl. by rewrite lookup_insert_eq. }
  intros Hrun. destruct v as [| | | | |l];
    try (rewrite apply_item_state_migrations_immutable in Hrun by done;
         discriminate).
  destruct (h !! l) as [[d|vs]|] eqn:Hl.
  - rewrite (apply_item_state_migrations_dict pv h l d Hl) in Hrun.
    simplify_eq. eapply Hdict, lookup_insert_eq.
  - destruct pv.
    + rewrite (apply_item_state_migrations_list_py2 h l vs Hl) in Hrun.
      discriminate.
    + unfold apply_item_state_migrations, _apply_migration in Hrun.
      unfold mbind at 1 in Hrun. unfold py_bind, bind in Hrun.
      simpl in Hrun. rewrite Hl in Hrun. simpl in Hrun.
      unfold _item_state_v1_to_v1p5 in Hrun.
      unfold mbind, py_bind, bind, mret, py_ret, ret in Hrun. simpl in Hrun.
      destruct vs as [|t [|lf vs]];
        repeat (rewrite lookup_insert_eq in Hrun; simpl in Hrun);
        try discriminate.
      simplify_eq. eapply Hdict, lookup_insert_eq.
  - unfold apply_item_state_migrations, _apply_migration in Hrun.
    unfold mbind at 1 in Hrun. unfold py_bind, bind in Hrun.
    simpl in Hrun. rewrite Hl in Hrun. discriminate.
Qed.

(** C7, at the docstring's own input.  [_item_state_v1_to_v1p5] documents
    the pair [('100px', '120px')] as its input, and the step alone turns a
    pair into a record; the pipeline never reaches the step, because
    [_apply_migration] first calls [copy] on the pair and a tuple has no
    such attribute. *)
Theorem item_state_pipeline_rejects_pair pv (h : gmap positive object) :
  apply_item_state_migrations pv legacy_pair h = (Raise AttributeError, h) ∧
  ∃ l' h',
    _item_state_v1_to_v1p5 legacy_pair h = (Ok (VRef l'), h') ∧
    deref_dict h' (VRef l')
    = Some {[ "top" := VStr "100px"; "left" := VStr "120px" ]}.
Proof.
  split; [reflexivity|].
  eexists _, _. split; [apply item_state_v1_to_v1p5_pair|].
  simpl. by rewrite lookup_insert_eq.
Qed.

(** A record passes through the first item-state step unchanged: the step
    returns the very reference it was given and does not write. *)
Lemma item_state_v1_to_v1p5_passes_records (h : gmap positive object) l d :
  h !! l = Some (ODict d) →
  _item_state_v1_to_v1p5 (VRef l) h = (Ok (VRef l), h).
Proof. apply item_state_v1_to_v1p5_dict. Qed.

(** C8: both pipelines leave the record they are given unchanged.  They
    work on a copy: the result is a new object, and every object there was
    before the call is the same after it. *)
Theorem migrations_leave_input_unchanged pv (h : gmap positive object) l d :
  h !! l = Some (ODict d) →
  leaves_input_unchanged (apply_zone_migrations pv) h l ∧
  leaves_input_unchanged (apply_item_state_migrations pv) h l.
Proof.
  intros H.
  assert (Hfresh := fresh_unused h).
  assert (Hne : fresh (dom h) ≠ l) by (intros E; rewrite E in Hfresh; congruence).
  split; eexists _, _.
  - split; [by apply apply_zone_migrations_run|].
    repeat split; [done|done|by rewrite lookup_insert_ne|].
    intros l0 o Ho. rewrite lookup_insert_ne; [done|]. congruence.
  - split; [by apply apply_item_state_migrations_dict|].
    repeat split; [done|done|by rewrite lookup_insert_ne|].
    intros l0 o Ho. rewrite lookup_insert_ne; [done|]. congruence.
Qed.

Lemma migrations_leave_input_unchanged_witness :
  leaves_input_unchanged (apply_zone_migrations Py2) (store_of legacy_zone) 1 ∧
  leaves_input_unchanged (apply_item_state_migrations Py2) (store_of legacy_zone) 1.
Proof.
  apply (migrations_leave_input_unchanged Py2 (store_of legacy_zone) 1 legacy_zone).
  reflexivity.
Defined.

(** Whatever the argument, record or not, and whether the call returns or
    raises, no object of the store the call started from is changed or
    removed: the store only grows. *)
Lemma migrations_only_allocate pv v (h : gmap positive object) :
  h ⊆ (apply_zone_migrations pv v h).2 ∧
  h ⊆ (apply_item_state_migrations pv v h).2.
Proof.
  destruct v as [| | | | |l]; try (split; reflexivity).
  destruct (h !! l) as [[d|vs]|] eqn:Hl.
  - rewrite (apply_zone_migrations_run pv h l d Hl).
    rewrite (apply_item_state_migrations_dict pv h l d Hl).
    split; apply insert_subseteq, fresh_unused.
  - destruct pv.
    + rewrite (apply_item_state_migrations_list_py2 h l vs Hl).
      unfold apply_zone_migrations, _apply_migration.
      unfold mbind at 1. unfold py_bind, bind. simpl. rewrite Hl.
      split; reflexivity.
    + assert (H1 := insert_subseteq h (fresh (dom h)) (OList vs) (fresh_unused h)).
      split.
      * unfold apply_zone_migrations, _apply_migration.
        unfold mbind at 1. unfold py_bind, bind. simpl. rewrite Hl. simpl.
        unfold _zone_v1_to_v2. py_unfold. simpl.
        rewrite !lookup_insert_eq. simpl.
        destruct (str_in_list "uid" vs); simpl; rewrite lookup_insert_eq; exact H1.
      * unfold apply_item_state_migrations, _apply_migration.
        unfold mbind at 1. unfold py_bind, bind. simpl. rewrite Hl. simpl.
        unfold _item_state_v1_to_v1p5. py_unfold. simpl.
        destruct vs as [|t [|lf vs]];
          repeat (rewrite lookup_insert_eq; simpl); try exact H1.
        etrans; [exact H1|]. apply insert_subseteq, fresh_unused.
  - split.
    + unfold apply_zone_migrations, _apply_migration.
      unfold mbind at 1. unfold py_bind, bind. simpl. by rewrite Hl.
    + unfold apply_item_state_migrations, _apply_migration.
      unfold mbind at 1. unfold py_bind, bind. simpl. by rewrite Hl.
Qed.

(** ** Feedback messages *)

Import FeedbackMessages.

Lemma ngettext_fallback_singular_iff (s p : string) (n : Z) :
  s ≠ p → (ngettext_fallback s p n = s ↔ n = 1%Z).
Proof.
  intros Hsp. unfold ngettext_fallback. by case_bool_decide.
Qed.

(** The text of each builder with the default [ngettext_fallback], around
    whatever [str] makes of the count. *)
Lemma builders_fallback_text n :
  correctly_placed n ngettext_fallback
  = Ok ("Correctly placed " +:+ py_str_int n +:+
        (if bool_decide (n = 1%Z) then " item." else " items.")) ∧
  misplaced n ngettext_fallback
  = Ok ("Misplaced " +:+ py_str_int n +:+
        (if bool_decide (n = 1%Z)
         then " item. Misplaced item was returned to item bank."
         else " items. Misplaced items were returned to item bank.")) ∧
  not_placed n ngettext_fallback
  = Ok ("Did not place " +:+ py_str_int n +:+
        (if bool_decide (n = 1%Z) then " required item." else " required items.")).
Proof.
  unfold correctly_placed, misplaced, not_placed, ngettext_fallback, str_format.
  generalize (py_str_int n). intros s.
  case_bool_decide; repeat split; reflexivity.
Qed.

(** *** What [str] makes of an integer *)

Lemma digit_value_pretty_N_char d :
  (d < 10)%N → digit_value (pretty_N_char d) = Some (Z.of_N d).
Proof.
  intros Hd.
  assert (d = 0 ∨ d = 1 ∨ d = 2 ∨ d = 3 ∨ d = 4 ∨ d = 5 ∨ d = 6 ∨ d = 7
          ∨ d = 8 ∨ d = 9)%N as Hcases by lia.
  destruct_or!; subst d; reflexivity.
Qed.

Lemma pretty_N_char_leading d :
  (0 < d < 10)%N → pretty_N_char d ≠ "0"%char ∧ pretty_N_char d ≠ "-"%char.
Proof.
  intros Hd.
  assert (d = 1 ∨ d = 2 ∨ d = 3 ∨ d = 4 ∨ d = 5 ∨ d = 6 ∨ d = 7
          ∨ d = 8 ∨ d = 9)%N as Hcases by lia.
  destruct_or!; subst d; split; discriminate.
Qed.

(** The digits [pretty_N_go] puts in front of [s] denote [x]. *)
Lemma digits_value_pretty_N_go x s :
  digits_value 0 (pretty_N_go x s) = digits_value (Z.of_N x) s.
Proof.
  revert s. induction (N.lt_wf_0 x) as [x _ IH]; intros s.
  destruct (decide (x = 0)%N) as [->|Hx]; [by rewrite pretty_N_go_0|].
  rewrite pretty_N_go_step by lia.
  rewrite IH by (apply N.div_lt; lia).
  cbn [digits_value].
  rewrite digit_value_pretty_N_char by (apply N.mod_upper_bound; lia).
  f_equal. pose proof (N.div_mod x 10). lia.
Qed.

(** They start with a digit that is not zero. *)
Lemma pretty_N_go_head x s :
  (0 < x)%N →
  ∃ c rest, pretty_N_go x s = String c rest ∧ c ≠ "0"%char ∧ c ≠ "-"%char.
Proof.
  revert s. induction (N.lt_wf_0 x) as [x _ IH]; intros s Hx.
  rewrite pretty_N_go_step by done.
  destruct (decide (x `div` 10 = 0)%N) as [E|E].
  - rewrite E, pretty_N_go_0. eexists _, _. split; [done|].
    apply pretty_N_char_leading.
    assert (x = 10 * x `div` 10 + x `mod` 10)%N as Hdm by (by apply N.div_mod).
    assert (x `mod` 10 < 10)%N by (by apply N.mod_upper_bound).
    rewrite E in Hdm. lia.
  - apply IH; [apply N.div_lt; lia|by apply N.neq_0_lt_0].
Qed.

(** [str(n)] is the canonical decimal numeral of [n]. *)
Lemma py_str_int_decimal n :
  decimal_value (py_str_int n) = Some n ∧ canonical_decimal (py_str_int n) = true.
Proof.
  unfold py_str_int, pretty, pretty_Z. destruct n as [|p|p].
  - done.
  - unfold pretty, pretty_positive, pretty, pretty_N.
    destruct (decide (N.pos p = 0%N)); [done|].
    destruct (pretty_N_go_head (N.pos p) "") as (c & rest & E & Hc0 & Hcm); [lia|].
    pose proof (digits_value_pretty_N_go (N.pos p) "") as Hv.
    rewrite E in Hv |- *. unfold decimal_value, canonical_decimal.
    rewrite (bool_decide_eq_false_2 _ Hcm), (bool_decide_eq_false_2 _ Hc0).
    by rewrite Hv.
  - unfold pretty, pretty_positive, pretty, pretty_N.
    destruct (decide (N.pos p = 0%N)); [done|].
    destruct (pretty_N_go_head (N.pos p) "") as (c & rest & E & Hc0 & Hcm); [lia|].
    pose proof (digits_value_pretty_N_go (N.pos p) "") as Hv.
    rewrite E in Hv |- *.
    change ("-" +:+ String c rest) with (String "-" (String c rest)).
    unfold decimal_value, canonical_decimal.
    rewrite bool_decide_eq_true_2 by done.
    rewrite (bool_decide_eq_false_2 _ Hc0). by rewrite Hv.
Qed.

(** C9: for every integer [n] each of the three builders returns the
    singular template when [n = 1] and the plural one otherwise, with the
    count in place of the replacement field: the text put there is the
    canonical decimal numeral that denotes [n].  The builders take no store
    and return a value: they are functions of [n]. *)
Theorem feedback_messages_by_count (n : Z) :
  ∃ count : string,
    decimal_value count = Some n ∧ canonical_decimal count = true ∧
    correctly_placed n ngettext_fallback
    = Ok ("Correctly placed " +:+ count +:+
          (if bool_decide (n = 1%Z) then " item." else " items.")) ∧
    misplaced n ngettext_fallback
    = Ok ("Misplaced " +:+ count +:+
          (if bool_decide (n = 1%Z)
           then " item. Misplaced item was returned to item bank."
           else " items. Misplaced items were returned to item bank.")) ∧
    not_placed n ngettext_fallback
    = Ok ("Did not place " +:+ count +:+
          (if bool_decide (n = 1%Z) then " required item." else " required items.")).
Proof.
  exists (py_str_int n).
  destruct (py_str_int_decimal n) as [Hv Hc].
  split; [exact Hv|]. split; [exact Hc|]. apply builders_fallback_text.
Qed.

(** For a dozen items the numeral is "12". *)
Lemma feedback_messages_by_count_witness :
  ∃ count : string,
    decimal_value count = Some 12%Z ∧ canonical_decimal count = true ∧
    correctly_placed 12 ngettext_fallback
    = Ok ("Correctly placed " +:+ count +:+ " items.") ∧
    correctly_placed 12 ngettext_fallback = Ok "Correctly placed 12 items.".
Proof.
  destruct (feedback_messages_by_count 12) as (count & Hv & Hc & Hmsg & _).
  exists count. split; [exact Hv|]. split; [exact Hc|]. split; [exact Hmsg|].
  reflexivity.
Defined.

(** The messages for one item, for no item and for a dozen. *)
Lemma feedback_messages_samples :
  correctly_placed 1 ngettext_fallback = Ok "Correctly placed 1 item." ∧
  correctly_placed 0 ngettext_fallback = Ok "Correctly placed 0 items." ∧
  correctly_placed 12 ngettext_fallback = Ok "Correctly placed 12 items." ∧
  misplaced 1 ngettext_fallback
  = Ok "Misplaced 1 item. Misplaced item was returned to item bank." ∧
  misplaced 3 ngettext_fallback
  = Ok "Misplaced 3 items. Misplaced items were returned to item bank." ∧
  not_placed 1 ngettext_fallback = Ok "Did not place 1 required item." ∧
  not_placed 205 ngettext_fallback = Ok "Did not place 205 required items.".
Proof. repeat split; reflexivity. Qed.

(** ** The engine *)

Import Engine.

Lemma find_zone_uid st z zn : find_zone st z = Some zn → uid zn = z.
Proof.
  unfold find_zone. intros H. apply find_some in H as [_ H].
  by apply bool_decide_eq_true in H.
Qed.

Lemma at_capacity_full st itemId zn m :
  maxItems zn = Some m → (0 < m)%nat → (m ≤ occupancy st itemId (uid zn))%nat →
  at_capacity st itemId zn = true.
Proof.
  intros Hm Hpos Hocc. unfold at_capacity. rewrite Hm.
  destruct m as [|m]; [lia|]. by apply Nat.leb_le.
Qed.

(** C2: when the target zone has a finite capacity [m] and [m] (or more)
    other items are placed in it, a gesture of either modality that ends on
    the zone issues the same command [placeItem(itemId, z)], the engine
    rejects it with [CapacityExceeded], and the item is in the bank
    afterwards. *)
Theorem capacity_rejection_any_modality st g itemId it z zn m :
  find_item st itemId = Some it →
  find_zone st z = Some zn →
  maxItems zn = Some m →
  (0 < m)%nat →
  (m ≤ occupancy st itemId z)%nat →
  ends_on st g z →
  let st' := set_placement st (delete itemId (placement st)) in
  issue st g itemId = Some (PlaceItem itemId (Some z)) ∧
  execute st (PlaceItem itemId (Some z))
  = inr ({| accepted := false; isCorrect := false; zoneId := None;
            reasonIfRejected := Some CapacityExceeded |}, st') ∧
  placement st' !! itemId = None.
Proof.
  intros Hit Hzn Hm Hpos Hocc Hg st'. split; [|split].
  - destruct g as [t|k f]; simpl in Hg.
    + by subst t.
    + destruct Hg as [Hk Hf]. simpl. by rewrite Hk, Hf.
  - simpl. unfold placeItem. rewrite Hit, Hzn.
    rewrite (at_capacity_full st itemId zn m); try done.
    by rewrite (find_zone_uid _ _ _ Hzn).
  - simpl. apply lookup_delete_eq.
Qed.

Lemma capacity_rejection_any_modality_witness :
  (issue full_zone_state (PointerRelease (Some "z")) 2
   = Some (PlaceItem 2 (Some "z")) ∧
   issue full_zone_state (KeyPress Space 0) 2
   = Some (PlaceItem 2 (Some "z"))) ∧
  ∃ st', execute full_zone_state (PlaceItem 2 (Some "z"))
         = inr ({| accepted := false; isCorrect := false; zoneId := None;
                   reasonIfRejected := Some CapacityExceeded |}, st') ∧
         placement st' !! 2 = None.
Proof.
  assert (Hocc : (2 ≤ occupancy full_zone_state 2 "z")%nat) by (vm_compute; lia).
  pose proof (capacity_rejection_any_modality full_zone_state
                (PointerRelease (Some "z")) 2 _ "z" _ 2
                eq_refl eq_refl eq_refl (le_S _ _ (le_n 1)) Hocc eq_refl) as Hp.
  pose proof (capacity_rejection_any_modality full_zone_state
                (KeyPress Space 0) 2 _ "z" _ 2
                eq_refl eq_refl eq_refl (le_S _ _ (le_n 1)) Hocc
                (conj eq_refl eq_refl)) as Hk.
  destruct Hp as (Hp1 & Hp2 & Hp3). destruct Hk as (Hk1 & _).
  split; [by split|]. eexists. by split.
Defined.

(** *** The order of the events *)

Ltac no_loaded :=
  unfold grade_events, close_events;
  repeat match goal with
         | |- context [if ?b then _ else _] => destruct b
         | |- context [match popup ?st with _ => _ end] => destruct (popup st)
         end;
  repeat first [rewrite not_elem_of_app | rewrite not_elem_of_cons];
  repeat split; (discriminate || apply not_elem_of_nil).

Lemma drop_no_loaded st i target : Loaded ∉ (drop st i target).1.
Proof.
  unfold drop. destruct (placeItem st i target) as [e|[v st']];
    [apply not_elem_of_nil|].
  destruct (accepted v); [|simpl; no_loaded].
  destruct (find_item st i), (target ≫= find_zone st); simpl; no_loaded.
Qed.

(** Once the engine is initialised it stays so and publishes loaded no
    more. *)
Lemma step_loaded s i :
  loaded s = true → loaded (step s i).2 = true ∧ Loaded ∉ (step s i).1.
Proof.
  intros Hl. destruct i as [|j|target|]; simpl.
  - rewrite Hl. split; [done|apply not_elem_of_nil].
  - rewrite Hl. simpl. repeat case_bool_decide; simpl; (split; [done|no_loaded]).
  - destruct (held s); simpl; (split; [done|]);
      [apply drop_no_loaded|apply not_elem_of_nil].
  - split; [done|no_loaded].
Qed.

Lemma run_loaded s ins :
  loaded s = true → loaded (run s ins).2 = true ∧ Loaded ∉ (run s ins).1.
Proof.
  revert s. induction ins as [|i ins IH]; intros s Hl; simpl.
  - split; [done|apply not_elem_of_nil].
  - destruct (step_loaded s i Hl) as [Hl' Hn].
    destruct (IH _ Hl') as [Hl'' Hn']. split; [done|].
    intros [?|?]%elem_of_app; tauto.
Qed.

Lemma run_app s ins1 ins2 :
  run s (ins1 ++ ins2)
  = (((run s ins1).1 ++ (run (run s ins1).2 ins2).1)%list,
     (run (run s ins1).2 ins2).2).
Proof.
  revert s. induction ins1 as [|i ins1 IH]; intros s; simpl.
  - by destruct (run s ins2).
  - rewrite IH. simpl. by rewrite app_assoc.
Qed.

(** Before its initialisation the engine publishes nothing and keeps
    nothing. *)
Lemma run_before_initialize cfg before :
  Initialize ∉ before → run (start cfg) before = ([], start cfg).
Proof.
  induction before as [|i before IH]; intros Hn; [done|].
  apply not_elem_of_cons in Hn as [Hi Hn].
  assert (Hstep : step (start cfg) i = ([], start cfg))
    by (by destruct i as [|j|target|]).
  cbn [run]. rewrite Hstep. cbn [fst snd]. by rewrite (IH Hn).
Qed.

(** A session starts with loaded, published once. *)
Lemma run_start cfg before history tr0 s :
  Initialize ∉ before →
  run (start cfg) (before ++ Initialize :: history) = (tr0, s) →
  ∃ tr0', tr0 = (Loaded :: tr0') ∧ (Loaded ∉ tr0') ∧ loaded s = true.
Proof.
  intros Hb. rewrite run_app, (run_before_initialize _ _ Hb). simpl.
  intros E. injection E as <- <-.
  eexists. split; [reflexivity|].
  match goal with |- context [run ?s0 history] =>
    destruct (run_loaded s0 history eq_refl) as [Hl Hn] end.
  by split.
Qed.

(** While feedback is on display and nothing is held, the next event, if
    there is one, closes that feedback. *)
Lemma next_event_closes s content ins :
  loaded s = true →
  popup (engine s) = Some content →
  held s = None →
  (run s ins).1 = [] ∨
  ∃ manually tail,
    (run s ins).1
    = FeedbackClosed manually content (truncated_at (engine s) content) :: tail.
Proof.
  revert s. induction ins as [|i ins IH]; intros s Hl Hp Hh; [by left|].
  destruct i as [|j|target|]; simpl.
  - rewrite Hl. simpl. by apply IH.
  - rewrite Hl, Hh. rewrite bool_decide_eq_true_2 by done. simpl.
    case_bool_decide; simpl.
    + right. unfold close_events. rewrite Hp. simpl. by eexists _, _.
    + by apply IH.
  - rewrite Hh. simpl. by apply IH.
  - right. unfold close_events. rewrite Hp. simpl. by eexists _, _.
Qed.

(** C3: in every session the events are published in this order.  loaded
    comes first and once, at the initialisation, whatever was attempted
    before it.  Then, whatever happened
    in between, picking up item [i] and dropping it on a zone [z] that is
    correct for it publishes, in a row: item.picked_up (after closing, not
    manually, feedback still on display), grade if the score changes,
    item.dropped with [is_correct], [item_id], [location] and
    [location_id], feedback.opened with the content and the [truncated]
    flag.  The next event of the session, if there is one, is
    feedback.closed for that content, with its [manually] flag. *)
Theorem pick_up_drop_event_order cfg before history tr0 s i it z zn rest :
  Initialize ∉ before →
  run (start cfg) (before ++ Initialize :: history) = (tr0, s) →
  held s = None →
  find_item (engine s) i = Some it →
  find_zone (engine s) z = Some zn →
  z ∈ validZoneIds it →
  at_capacity (engine s) i zn = false →
  let st := engine s in
  let st' := set_placement st (<[i := z]> (placement st)) in
  let content := feedback_for it z in
  let truncated := truncated_at st content in
  ∃ tr0' tail,
    tr0 = (Loaded :: tr0') ∧ (Loaded ∉ tr0') ∧
    (run s (PickUp i :: Drop (Some z) :: rest)).1
    = (close_events st false ++ [ItemPickedUp i] ++ grade_events st st' ++
       [ItemDropped true i (title zn) z; FeedbackOpened content truncated] ++
       tail)%list ∧
    (tail = [] ∨
     ∃ manually tail', tail = (FeedbackClosed manually content truncated :: tail')) ∧
    Loaded ∉ tail.
Proof.
  intros Hbefore Hrun Hh Hit Hzn Hin Hcap. cbv zeta.
  destruct (run_start cfg before history tr0 s Hbefore Hrun)
    as (tr0' & -> & Hn0 & Hl).
  assert (Huid := find_zone_uid _ _ _ Hzn).
  set (st := engine s) in *. set (content := feedback_for it z).
  set (s2 := {| engine := set_popup (set_placement (set_popup st None)
                                       (<[i := z]> (placement st))) (Some content);
                loaded := true; held := None |}).
  exists tr0', (run s2 rest).1.
  split; [done|]. split; [done|]. split; [|split].
  - cbn [run step]. fold st. rewrite Hl, Hh.
    rewrite bool_decide_eq_true_2 by done.
    rewrite bool_decide_eq_true_2 by (rewrite Hit; eauto).
    cbn [andb fst snd held engine loaded].
    unfold drop, placeItem.
    change (find_item (set_popup st None) i) with (find_item st i).
    change (find_zone (set_popup st None) z) with (find_zone st z).
    change (Some z ≫= find_zone (set_popup st None)) with (find_zone st z).
    rewrite Hit, Hzn.
    change (at_capacity (set_popup st None) i zn) with (at_capacity st i zn).
    rewrite Hcap.
    cbn [accepted isCorrect is_correct fst snd]. rewrite Huid.
    rewrite bool_decide_eq_true_2 by done.
    cbn [fst snd close_events popup set_popup app].
    fold content.
    rewrite <- !app_assoc. reflexivity.
  - destruct (next_event_closes s2 content rest eq_refl eq_refl eq_refl)
      as [E|(m & tail' & E)]; [by left|].
    right. by exists m, tail'.
  - by apply (run_loaded s2 rest).
Qed.

(** The run of [EventsFiredTest]: on the default exercise, item 0 is
    picked up and dropped on the top zone, then item 1 is picked up. *)
Lemma pick_up_drop_event_order_witness :
  ∃ tail,
    (run (start default_exercise) [Initialize; PickUp 0; Drop (Some "top"); PickUp 1]).1
    = ([ Loaded; ItemPickedUp 0; Grade (2 # 5) 1;
         ItemDropped true 0 "The Top Zone" "top";
         FeedbackOpened "Correct! This one belongs to The Top Zone." false ]
       ++ tail)%list ∧
    ∃ manually tail',
      tail = FeedbackClosed manually "Correct! This one belongs to The Top Zone." false
             :: tail'.
Proof.
  destruct (pick_up_drop_event_order default_exercise [] [] [Loaded]
              {| engine := default_exercise; loaded := true; held := None |}
              0 _ "top" _ [PickUp 1] (not_elem_of_nil _)
              eq_refl eq_refl eq_refl eq_refl)
    as (tr0' & tail & _ & _ & Hrun & Hclose & _).
  - apply list_elem_of_here.
  - reflexivity.
  - exists tail. split.
    + change (run (start default_exercise)
                [Initialize; PickUp 0; Drop (Some "top"); PickUp 1]).1
        with (Loaded :: (run {| engine := default_exercise; loaded := true;
                                held := None |}
                           [PickUp 0; Drop (Some "top"); PickUp 1]).1).
      rewrite Hrun. reflexivity.
    + destruct Hclose as [->|Hclose]; [|exact Hclose].
      exfalso. vm_compute in Hrun. discriminate Hrun.
Defined.

(** The six events [EventsFiredTest.scenarios] lists are, in that order,
    the first six of that run; the grade is 2/5 and the feedback is closed
    by the next pick-up, not manually. *)
Lemma events_fired_test_run :
  let trace :=
    (run (start default_exercise)
       [Initialize; PickUp 0; Drop (Some "top"); PickUp 1]).1 in
  trace
  = [ Loaded; ItemPickedUp 0; Grade (2 # 5) 1;
      ItemDropped true 0 "The Top Zone" "top";
      FeedbackOpened "Correct! This one belongs to The Top Zone." false;
      FeedbackClosed false "Correct! This one belongs to The Top Zone." false;
      ItemPickedUp 1 ] ∧
  event_name <$> take 6 trace = EventsFiredTest.scenarios.
Proof. split; reflexivity. Qed.

(** * Further properties of the migrations *)

Lemma returns_dict_zone pv (h : gmap positive object) l d :
  h !! l = Some (ODict d) →
  returns_dict (apply_zone_migrations pv (VRef l)) h (migrated_zone d).
Proof.
  intros H. eexists _, _. split; [by apply apply_zone_migrations_run|].
  simpl. by rewrite lookup_insert_eq.
Qed.

Lemma returns_dict_unique m (h : gmap positive object) d1 d2 :
  returns_dict m h d1 → returns_dict m h d2 → d1 = d2.
Proof.
  intros (r1 & h1 & E1 & D1) (r2 & h2 & E2 & D2). congruence.
Qed.

Lemma migrated_zone_uid d u :
  d !! "uid" = Some u → migrated_zone d !! "uid" = Some u.
Proof.
  intros Hu. unfold migrated_zone. rewrite zone_v2_to_v2p1_dict_other by done.
  unfold zone_v1_to_v2_dict. rewrite !lookup_delete_ne by done.
  by rewrite bool_decide_eq_true_2 by (rewrite Hu; eauto).
Qed.

Lemma migrated_zone_current d : current_zone (migrated_zone d).
Proof.
  unfold current_zone, migrated_zone. repeat split.
  - rewrite zone_v2_to_v2p1_dict_other by done. apply zone_v1_to_v2_dict_has_uid.
  - rewrite zone_v2_to_v2p1_dict_other by done. apply zone_v1_to_v2_dict_id.
  - rewrite zone_v2_to_v2p1_dict_other by done. apply zone_v1_to_v2_dict_index.
  - pose proof (zone_v2_to_v2p1_dict_aligned (zone_v1_to_v2_dict d)) as Ha.
    apply value_in_strs_iff in Ha as (a & Ha & Hin). exists a. split; [|done].
    destruct (zone_v2_to_v2p1_dict (zone_v1_to_v2_dict d) !! "align") as [v|] eqn:E;
      simpl in Ha; [by subst v|done].
Qed.

Lemma migrated_zone_fixed d : current_zone d → migrated_zone d = d.
Proof.
  intros (Hu & Hid & Hidx & a & Ha & Hin). unfold migrated_zone.
  assert (zone_v1_to_v2_dict d = d) as ->.
  { unfold zone_v1_to_v2_dict. rewrite bool_decide_eq_true_2 by done.
    by rewrite (delete_id d "id"), delete_id. }
  unfold zone_v2_to_v2p1_dict. rewrite Ha. cbn [from_option Datatypes.id].
  by assert (value_in_strs (VStr a) Constants.ALLOWED_ZONE_ALIGNMENTS = true) as ->
    by (apply value_in_strs_iff; eauto).
Qed.

(** X1: a zone that already has a [uid] keeps it, whatever its value (even
    [None]) and whatever the title: the title is only read when the key
    [uid] is missing. *)
Theorem zone_uid_never_overwritten pv (h : gmap positive object) l d u :
  h !! l = Some (ODict d) →
  d !! "uid" = Some u →
  ∃ d', returns_dict (apply_zone_migrations pv (VRef l)) h d' ∧
        d' !! "uid" = Some u.
Proof.
  intros H Hu. exists (migrated_zone d).
  split; [by apply returns_dict_zone|by apply migrated_zone_uid].
Qed.

Lemma zone_uid_never_overwritten_witness :
  ∃ d', returns_dict (apply_zone_migrations Py2 (VRef 1)) (store_of zone_with_uid) d' ∧
        d' !! "uid" = Some (VStr "zone-1").
Proof.
  apply (zone_uid_never_overwritten Py2 (store_of zone_with_uid) 1 zone_with_uid);
    reflexivity.
Defined.

(** X2: whatever record goes in, the record that comes out of the zone
    pipeline is in the current format: it has a [uid], it has neither [id]
    nor [index], and its [align] is one of left, right, center. *)
Theorem zone_output_current pv (h : gmap positive object) l d :
  h !! l = Some (ODict d) →
  ∃ d', returns_dict (apply_zone_migrations pv (VRef l)) h d' ∧ current_zone d'.
Proof.
  intros H. exists (migrated_zone d).
  split; [by apply returns_dict_zone|apply migrated_zone_current].
Qed.

Lemma zone_output_current_witness :
  ∃ d', returns_dict (apply_zone_migrations Py2 (VRef 1)) (store_of legacy_zone) d' ∧
        current_zone d'.
Proof.
  apply (zone_output_current Py2 (store_of legacy_zone) 1 legacy_zone).
  reflexivity.
Defined.

(** X3: the zone pipeline returns a record equal to its input exactly when
    the input is already in the current format. *)
Theorem zone_unchanged_iff_current pv (h : gmap positive object) l d :
  h !! l = Some (ODict d) →
  returns_dict (apply_zone_migrations pv (VRef l)) h d ↔ current_zone d.
Proof.
  intros H. pose proof (returns_dict_zone pv h l d H) as Hrun. split.
  - intros Hd. rewrite (returns_dict_unique _ _ _ _ Hd Hrun).
    apply migrated_zone_current.
  - intros Hcur. by rewrite (migrated_zone_fixed d Hcur) in Hrun.
Qed.

Lemma zone_unchanged_iff_current_witness :
  returns_dict (apply_zone_migrations Py2 (VRef 1)) (store_of zone_v2p1) zone_v2p1.
Proof.
  apply (zone_unchanged_iff_current Py2 (store_of zone_v2p1) 1 zone_v2p1 eq_refl).
  repeat split.
  - by eexists.
  - exists "left". split; [reflexivity|]. apply list_elem_of_here.
Defined.

(** X4: the zone pipeline touches four keys only.  Every other key of the
    input, [title] among them, is in the output with the same value, and no
    other key is added. *)
Theorem zone_other_keys_kept pv (h : gmap positive object) l d :
  h !! l = Some (ODict d) →
  ∃ d', returns_dict (apply_zone_migrations pv (VRef l)) h d' ∧
        ∀ k, k ≠ "uid" → k ≠ "id" → k ≠ "index" → k ≠ "align" →
             d' !! k = d !! k.
Proof.
  intros H. exists (migrated_zone d). split; [by apply returns_dict_zone|].
  intros k ????. unfold migrated_zone.
  rewrite zone_v2_to_v2p1_dict_other by done.
  by apply zone_v1_to_v2_dict_other.
Qed.

Lemma zone_other_keys_kept_witness :
  ∃ d', returns_dict (apply_zone_migrations Py2 (VRef 1)) (store_of legacy_zone) d' ∧
        d' !! "title" = Some (VStr "Zone").
Proof.
  destruct (zone_other_keys_kept Py2 (store_of legacy_zone) 1 legacy_zone eq_refl)
    as (d' & Hrun & Hk).
  exists d'. split; [exact Hrun|]. by rewrite Hk.
Defined.

Lemma zone_steps_commute_dict d :
  zone_v2_to_v2p1_dict (zone_v1_to_v2_dict d)
  = zone_v1_to_v2_dict (zone_v2_to_v2p1_dict d).
Proof.
  unfold zone_v2_to_v2p1_dict at 1.
  rewrite (zone_v1_to_v2_dict_other d "align") by done.
  unfold zone_v2_to_v2p1_dict.
  destruct (value_in_strs (default VNone (d !! "align")) _); [done|].
  unfold zone_v1_to_v2_dict.
  rewrite !lookup_insert_ne by done.
  rewrite <- !delete_insert_ne by done. do 2 f_equal.
  case_bool_decide; [done|]. by apply insert_insert_ne.
Qed.

(** X5: the two zone steps commute: on a record, running the alignment
    step before the [uid] step leaves the same record, in the same object,
    as the order the pipeline uses. *)
Theorem zone_steps_commute (h : gmap positive object) l d :
  h !! l = Some (ODict d) →
  run_migrations [_zone_v2_to_v2p1; _zone_v1_to_v2] (VRef l) h
  = run_migrations [_zone_v1_to_v2; _zone_v2_to_v2p1] (VRef l) h.
Proof.
  intros H. simpl. py_unfold.
  rewrite (zone_v2_to_v2p1_run h l d H), (zone_v1_to_v2_run h l d H).
  rewrite (zone_v1_to_v2_run _ l (zone_v2_to_v2p1_dict d)) by apply lookup_insert_eq.
  rewrite (zone_v2_to_v2p1_run _ l (zone_v1_to_v2_dict d)) by apply lookup_insert_eq.
  by rewrite !insert_insert_eq, zone_steps_commute_dict.
Qed.

Lemma zone_steps_commute_witness :
  run_migrations [_zone_v2_to_v2p1; _zone_v1_to_v2] (VRef 1) (store_of legacy_zone)
  = run_migrations [_zone_v1_to_v2; _zone_v2_to_v2p1] (VRef 1) (store_of legacy_zone).
Proof.
  apply (zone_steps_commute (store_of legacy_zone) 1 legacy_zone). reflexivity.
Defined.

(** X6: a zone step called on its own works in place: it returns the very
    reference it was given, and the caller's record is the one that has
    lost [id] and [index] and gained [uid].  Only [_apply_migration] makes a
    copy. *)
Theorem zone_step_mutates_argument (h : gmap positive object) l d :
  h !! l = Some (ODict d) →
  ∃ h' d',
    _zone_v1_to_v2 (VRef l) h = (Ok (VRef l), h') ∧
    h' !! l = Some (ODict d') ∧
    is_Some (d' !! "uid") ∧ d' !! "id" = None ∧ d' !! "index" = None ∧
    ∀ l0, l0 ≠ l → h' !! l0 = h !! l0.
Proof.
  intros H. eexists _, (zone_v1_to_v2_dict d).
  split; [by apply zone_v1_to_v2_run|].
  split; [apply lookup_insert_eq|].
  split; [apply zone_v1_to_v2_dict_has_uid|].
  split; [apply zone_v1_to_v2_dict_id|].
  split; [apply zone_v1_to_v2_dict_index|].
  intros l0 Hl0. by rewrite lookup_insert_ne.
Qed.

Lemma zone_step_mutates_argument_witness :
  ∃ h' d',
    _zone_v1_to_v2 (VRef 1) (store_of legacy_zone) = (Ok (VRef 1), h') ∧
    h' !! 1%positive = Some (ODict d') ∧ d' !! "id" = None ∧
    legacy_zone !! "id" = Some (VInt 1).
Proof.
  destruct (zone_step_mutates_argument (store_of legacy_zone) 1 legacy_zone eq_refl)
    as (h' & d' & Hrun & Hl & _ & Hid & _).
  exists h', d'. repeat split; try assumption.
Defined.

(** X7: [_apply_migration] copies before it migrates, so a value without a
    [copy] method (None, a boolean, a number, a string, a tuple) raises
    AttributeError whatever the migrations are: none of them runs, and the
    store is as it was. *)
Theorem apply_migration_needs_copy pv v migrations (h : gmap positive object) :
  (∀ l, v ≠ VRef l) →
  _apply_migration pv v migrations h = (Raise AttributeError, h).
Proof. intros Hv. destruct v; try reflexivity. by destruct (Hv l). Qed.

Lemma apply_migration_needs_copy_witness :
  _apply_migration Py3 VNone [_zone_v1_to_v2; _zone_v2_to_v2p1] (store_of legacy_zone)
  = (Raise AttributeError, store_of legacy_zone).
Proof.
  apply (apply_migration_needs_copy Py3 VNone). intros l. discriminate.
Defined.

(** The loop over a concatenation is the loop over the first list followed
    by the loop over the second. *)
Lemma run_migrations_app ms1 ms2 tmp (h : gmap positive object) :
  run_migrations (ms1 ++ ms2) tmp h
  = match run_migrations ms1 tmp h with
    | (Ok tmp', h') => run_migrations ms2 tmp' h'
    | (Raise e, h') => (Raise e, h')
    end.
Proof.
  revert tmp h. induction ms1 as [|m ms1 IH]; intros tmp h; [reflexivity|].
  simpl. py_unfold. destruct (m tmp h) as [[tmp'|e] h']; [apply IH|reflexivity].
Qed.

(** ** Which inputs the pipelines accept *)

Lemma zone_run_inv pv v (h : gmap positive object) r h' :
  apply_zone_migrations pv v h = (Ok r, h') →
  ∃ l d, v = VRef l ∧ h !! l = Some (ODict d) ∧
         r = VRef (fresh (dom h)) ∧
         h' = <[fresh (dom h) := ODict (migrated_zone d)]> h.
Proof.
  intros Hrun. destruct v as [| | | | |l]; try discriminate.
  destruct (h !! l) as [[d|vs]|] eqn:Hl.
  - rewrite (apply_zone_migrations_run pv h l d Hl) in Hrun.
    simplify_eq. by exists l, d.
  - exfalso. unfold apply_zone_migrations, _apply_migration in Hrun.
    unfold mbind at 1 in Hrun. unfold py_bind, bind in Hrun.
    simpl in Hrun. rewrite Hl in Hrun. destruct pv; [discriminate|].
    simpl in Hrun. unfold _zone_v1_to_v2 in Hrun.
    unfold mbind, py_bind, bind, mret, py_ret, ret, pass in Hrun.
    simpl in Hrun. rewrite !lookup_insert_eq in Hrun. simpl in Hrun.
    destruct (str_in_list "uid" vs); simpl in Hrun;
      rewrite lookup_insert_eq in Hrun; discriminate.
  - exfalso. unfold apply_zone_migrations, _apply_migration in Hrun.
    unfold mbind at 1 in Hrun. unfold py_bind, bind in Hrun.
    simpl in Hrun. rewrite Hl in Hrun. discriminate.
Qed.

Lemma item_state_run_list_py3 (h : gmap positive object) l vs :
  h !! l = Some (OList vs) →
  apply_item_state_migrations Py3 (VRef l) h
  = let l1 := fresh (dom h) in
    let h1 := <[l1 := OList vs]> h in
    match vs with
    | t :: lf :: _ =>
        (Ok (VRef (fresh (dom h1))),
         <[fresh (dom h1) := ODict {[ "top" := t; "left" := lf ]}]> h1)
    | _ => (Raise IndexError, h1)
    end.
Proof.
  intros Hl. unfold apply_item_state_migrations, _apply_migration.
  unfold mbind at 1. unfold py_bind, bind. simpl. rewrite Hl. simpl.
  unfold _item_state_v1_to_v1p5. py_unfold. simpl.
  destruct vs as [|t [|lf vs]];
    repeat (rewrite lookup_insert_eq; simpl); reflexivity.
Qed.

Lemma item_state_run_inv pv v (h : gmap positive object) r h' :
  apply_item_state_migrations pv v h = (Ok r, h') →
  ∃ l, v = VRef l ∧
    ((∃ d, h !! l = Some (ODict d) ∧ r = VRef (fresh (dom h)) ∧
           h' = <[fresh (dom h) := ODict d]> h) ∨
     (pv = Py3 ∧ ∃ t lf rest,
        h !! l = Some (OList (t :: lf :: rest)) ∧
        let h1 := <[fresh (dom h) := OList (t :: lf :: rest)]> h in
        r = VRef (fresh (dom h1)) ∧
        h' = <[fresh (dom h1) := ODict {[ "top" := t; "left" := lf ]}]> h1)).
Proof.
  intros Hrun. destruct v as [| | | | |l]; try discriminate.
  exists l. split; [done|].
  destruct (h !! l) as [[d|vs]|] eqn:Hl.
  - rewrite (apply_item_state_migrations_dict pv h l d Hl) in Hrun.
    simplify_eq. left. by exists d.
  - destruct pv.
    + rewrite (apply_item_state_migrations_list_py2 h l vs Hl) in Hrun.
      discriminate.
    + rewrite (item_state_run_list_py3 h l vs Hl) in Hrun. simpl in Hrun.
      destruct vs as [|t [|lf rest]]; try discriminate.
      simplify_eq. right. split; [done|]. by exists t, lf, rest.
  - exfalso. unfold apply_item_state_migrations, _apply_migration in Hrun.
    unfold mbind at 1 in Hrun. unfold py_bind, bind in Hrun.
    simpl in Hrun. rewrite Hl in Hrun. discriminate.
Qed.





(** X11: whenever either pipeline returns, what it returns is a reference
    to a dictionary that did not exist before the call: the caller never
    gets its own object back. *)
Theorem pipelines_return_new_dict pv v (h : gmap positive object) r h' :
  apply_zone_migrations pv v h = (Ok r, h') ∨
  apply_item_state_migrations pv v h = (Ok r, h') →
  ∃ l d, r = VRef l ∧ h !! l = None ∧ h' !! l = Some (ODict d).
Proof.
  intros [Hrun|Hrun].
  - destruct (zone_run_inv pv v h r h' Hrun) as (l & d & _ & _ & -> & ->).
    eexists _, _. split; [done|]. split; [apply fresh_unused|apply lookup_insert_eq].
  - destruct (item_state_run_inv pv v h r h' Hrun) as (l & _ & Hcase).
    destruct Hcase as [(d & _ & -> & ->)|(_ & t & lf & rest & _ & Hr)].
    + eexists _, _. split; [done|].
      split; [apply fresh_unused|apply lookup_insert_eq].
    + simpl in Hr. destruct Hr as [-> ->].
      eexists _, _. split; [done|]. split; [|apply lookup_insert_eq].
      set (h1 := <[fresh (dom h) := OList (t :: lf :: rest)]> h).
      pose proof (fresh_unused h1) as Hf.
      destruct (h !! fresh (dom h1)) as [o|] eqn:E; [|done].
      assert (h ⊆ h1) as Hsub by apply insert_subseteq, fresh_unused.
      rewrite (lookup_weaken h h1 _ o E Hsub) in Hf. discriminate.
Qed.

Lemma pipelines_return_new_dict_witness :
  ∃ l d, VRef 2 = VRef l ∧ store_of legacy_zone !! l = None ∧
         <[2%positive := ODict (migrated_zone legacy_zone)]> (store_of legacy_zone) !! l
         = Some (ODict d).
Proof.
  apply (pipelines_return_new_dict Py2 (VRef 1) (store_of legacy_zone)).
  left. apply (apply_zone_migrations_run Py2 (store_of legacy_zone) 1 legacy_zone).
  reflexivity.
Defined.

(** ** The first item-state step on its own *)

(** X12: on a tuple the first item-state step reads the elements 0 and 1
    and no other: with fewer than two elements it raises IndexError and
    allocates nothing; with two or more it returns a new record whose only
    keys are [top] and [left], the further elements being ignored. *)
Theorem item_state_pair_bounds vs (h : gmap positive object) :
  _item_state_v1_to_v1p5 (VTuple vs) h
  = match vs with
    | t :: lf :: _ =>
        (Ok (VRef (fresh (dom h))),
         <[fresh (dom h) := ODict {[ "top" := t; "left" := lf ]}]> h)
    | _ => (Raise IndexError, h)
    end.
Proof. destruct vs as [|t [|lf rest]]; reflexivity. Qed.

(** X13: the first item-state step does not check the shape of what it is
    given beyond [isinstance(item, dict)]: a string of two or more
    characters is indexed like a pair and becomes a record of its first two
    characters, while None, a boolean or a number raise TypeError. *)
Theorem item_state_step_shapes (h : gmap positive object) :
  (∀ a b s,
     returns_dict (_item_state_v1_to_v1p5 (VStr (String a (String b s)))) h
       {[ "top" := VStr (String a EmptyString);
          "left" := VStr (String b EmptyString) ]}) ∧
  _item_state_v1_to_v1p5 VNone h = (Raise TypeError, h) ∧
  (∀ b, _item_state_v1_to_v1p5 (VBool b) h = (Raise TypeError, h)) ∧
  (∀ n, _item_state_v1_to_v1p5 (VInt n) h = (Raise TypeError, h)).
Proof.
  repeat split.
  intros a b s. eexists _, _. split; [reflexivity|].
  simpl. by rewrite lookup_insert_eq.
Qed.

(** X14: under Python 3 a list of two or more elements goes through the
    item-state pipeline: the result is a record with [top] and [left] set
    to the first two elements (the last step strips nothing), and the
    caller's list is unchanged. *)
Theorem item_state_list_py3 (h : gmap positive object) l t lf rest :
  h !! l = Some (OList (t :: lf :: rest)) →
  ∃ r h',
    apply_item_state_migrations Py3 (VRef l) h = (Ok r, h') ∧
    deref_dict h' r = Some {[ "top" := t; "left" := lf ]} ∧
    h' !! l = Some (OList (t :: lf :: rest)).
Proof.
  intros Hl. eexists _, _.
  split; [by rewrite (item_state_run_list_py3 h l _ Hl)|].
  split; [simpl; by rewrite lookup_insert_eq|].
  pose proof (migrations_only_allocate Py3 (VRef l) h) as [_ Hsub].
  rewrite (item_state_run_list_py3 h l _ Hl) in Hsub. simpl in Hsub.
  by apply (lookup_weaken _ _ _ _ Hl Hsub).
Qed.

Lemma item_state_list_py3_witness :
  ∃ r h',
    apply_item_state_migrations Py3 (VRef 1)
      {[ 1%positive := OList [VStr "100px"; VStr "120px"] ]} = (Ok r, h') ∧
    deref_dict h' r = Some {[ "top" := VStr "100px"; "left" := VStr "120px" ]} ∧
    h' !! 1%positive = Some (OList [VStr "100px"; VStr "120px"]).
Proof.
  apply (item_state_list_py3 {[ 1%positive := OList [VStr "100px"; VStr "120px"] ]}
           1 (VStr "100px") (VStr "120px") []).
  reflexivity.
Defined.

(** X15: under Python 2 no list goes through either pipeline: a list has no
    [copy] there, so the call raises AttributeError before any step. *)
Theorem list_input_py2 migrations (h : gmap positive object) l vs :
  h !! l = Some (OList vs) →
  _apply_migration Py2 (VRef l) migrations h = (Raise AttributeError, h).
Proof.
  intros Hl. unfold _apply_migration.
  unfold mbind. unfold py_bind, bind. simpl. by rewrite Hl.
Qed.

Lemma list_input_py2_witness :
  _apply_migration Py2 (VRef 1)
    [_item_state_v1_to_v1p5; _item_state_v1p5_to_v2; _item_state_v2_to_v2p1]
    {[ 1%positive := OList [VStr "100px"; VStr "120px"] ]}
  = (Raise AttributeError, {[ 1%positive := OList [VStr "100px"; VStr "120px"] ]}).
Proof.
  apply (list_input_py2 _ {[ 1%positive := OList [VStr "100px"; VStr "120px"] ]} 1
           [VStr "100px"; VStr "120px"]).
  reflexivity.
Defined.

(** ** The test helpers *)

Import InteractionTestBase.

(** X16: [_get_items_with_zone] and [_get_items_without_zone] split
    [items_map] in two: no key is in both results, every entry is in one of
    them, and an entry is in the first exactly when its [zone_ids] is not
    empty. *)
Theorem items_split_by_zone (items_map : gmap Z ItemDefinition) :
  _get_items_with_zone items_map ##ₘ _get_items_without_zone items_map ∧
  _get_items_with_zone items_map ∪ _get_items_without_zone items_map = items_map ∧
  (∀ k it, _get_items_with_zone items_map !! k = Some it ↔
           items_map !! k = Some it ∧ zone_ids it ≠ []) ∧
  (∀ k it, _get_items_without_zone items_map !! k = Some it ↔
           items_map !! k = Some it ∧ zone_ids it = []).
Proof.
  unfold _get_items_with_zone, _get_items_without_zone. split; [|split; [|split]].
  - symmetry.
    apply (map_disjoint_filter_complement (λ kv : Z * ItemDefinition, zone_ids kv.2 = [])).
  - rewrite map_union_comm.
    + apply (map_filter_union_complement (λ kv : Z * ItemDefinition, zone_ids kv.2 = [])).
    + symmetry.
      apply (map_disjoint_filter_complement (λ kv : Z * ItemDefinition, zone_ids kv.2 = [])).
  - intros k it. by rewrite map_lookup_filter_Some.
  - intros k it. by rewrite map_lookup_filter_Some.
Qed.

(** ** Formatting *)

Lemma append_cons c (s t : string) : String c s +:+ t = String c (s +:+ t).
Proof. reflexivity. Qed.

Lemma append_nil_l (t : string) : "" +:+ t = t.
Proof. reflexivity. Qed.

Lemma append_nil_r (s : string) : s +:+ "" = s.
Proof. induction s as [|c s IH]; [done|]. by rewrite append_cons, IH. Qed.

Lemma append_assoc (s1 s2 s3 : string) : (s1 +:+ s2) +:+ s3 = s1 +:+ s2 +:+ s3.
Proof.
  induction s1 as [|c s1 IH]; [done|]. by rewrite !append_cons, IH.
Qed.

Lemma length_append (s1 s2 : string) :
  String.length (s1 +:+ s2) = (String.length s1 + String.length s2)%nat.
Proof.
  induction s1 as [|c s1 IH]; [done|]. rewrite append_cons. simpl. by rewrite IH.
Qed.

Lemma append_inj_r (s1 s2 t : string) : s1 +:+ t = s2 +:+ t → s1 = s2.
Proof.
  revert s2. induction s1 as [|c s1 IH]; intros [|c2 s2] E.
  - done.
  - apply (f_equal String.length) in E.
    rewrite append_nil_l, append_cons in E. simpl in E.
    rewrite length_append in E. lia.
  - apply (f_equal String.length) in E.
    rewrite append_nil_l, append_cons in E. simpl in E.
    rewrite length_append in E. lia.
  - rewrite !append_cons in E. injection E as -> E. f_equal. by apply IH.
Qed.

Lemma result_map_compose {A B C} (f : B → C) (g : A → B) (r : result A) :
  result_map f (result_map g r) = result_map (λ a, f (g a)) r.
Proof. by destruct r. Qed.

Lemma brace_free_cons c s :
  brace_free (String c s) = true →
  bool_decide (c = "{"%char) = false ∧ bool_decide (c = "}"%char) = false ∧
  brace_free s = true.
Proof.
  simpl. intros [Hc Hs]%andb_true_iff. apply andb_true_iff in Hc as [H1 H2].
  by apply negb_true_iff in H1, H2.
Qed.

Lemma name_chars_brace_free s : name_chars s = true → brace_free s = true.
Proof.
  induction s as [|c s IH]; [done|]. simpl. intros [Hc Hs]%andb_true_iff.
  rewrite (IH Hs), andb_true_r.
  destruct (decide (c = "{"%char)) as [->|]; [discriminate|].
  destruct (decide (c = "}"%char)) as [->|]; [discriminate|].
  by rewrite !bool_decide_eq_false_2.
Qed.

(** Text without braces is copied. *)
Lemma format_from_text name arg pre rest :
  brace_free pre = true →
  format_from None name arg (pre +:+ rest)
  = result_map (String.append pre) (format_from None name arg rest).
Proof.
  induction pre as [|c pre IH]; intros Hb.
  - rewrite append_nil_l. by destruct (format_from None name arg rest).
  - apply brace_free_cons in Hb as (Hc1 & Hc2 & Hb).
    rewrite append_cons. cbn [format_from]. rewrite Hc1, Hc2.
    rewrite (IH Hb). by rewrite result_map_compose.
Qed.

(** A field is read up to its closing brace and then looked up. *)
Lemma format_from_field name arg f f' rest :
  brace_free f' = true →
  format_from (Some f) name arg (f' +:+ String "}" rest)
  = match field_lookup name arg (f +:+ f') with
    | Ok v => result_map (String.append v) (format_from None name arg rest)
    | Raise e => Raise e
    end.
Proof.
  revert f. induction f' as [|c f' IH]; intros f Hb.
  - by rewrite append_nil_r.
  - apply brace_free_cons in Hb as (Hc1 & Hc2 & Hb).
    rewrite append_cons. cbn [format_from]. rewrite Hc1, Hc2.
    rewrite (IH _ Hb). by rewrite append_assoc.
Qed.

Lemma format_from_open name arg f rest :
  brace_free f = true →
  format_from None name arg (String "{" (f +:+ String "}" rest))
  = format_from (Some "") name arg (f +:+ String "}" rest).
Proof.
  intros Hb. destruct f as [|c f]; [reflexivity|].
  apply brace_free_cons in Hb as (Hc1 & _).
  rewrite append_cons. cbn [format_from]. by rewrite Hc1.
Qed.

(** The general shape of a template with one replacement field. *)
Lemma str_format_one_field name arg pre f post :
  brace_free pre = true → brace_free f = true → brace_free post = true →
  str_format (pre +:+ String "{" (f +:+ String "}" post)) name arg
  = match field_lookup name arg f with
    | Ok v => Ok (pre +:+ v +:+ post)
    | Raise e => Raise e
    end.
Proof.
  intros Hpre Hf Hpost. unfold str_format.
  rewrite (format_from_text _ _ _ _ Hpre), (format_from_open _ _ _ _ Hf).
  rewrite (format_from_field _ _ "" f post Hf), append_nil_l.
  destruct (field_lookup name arg f) as [v|e]; [|done].
  rewrite <- (append_nil_r post) at 1.
  rewrite (format_from_text _ _ _ _ Hpost). cbn [format_from result_map].
  by rewrite append_nil_r.
Qed.

Lemma str_format_no_field name arg t :
  brace_free t = true → str_format t name arg = Ok t.
Proof.
  intros Hb. unfold str_format. rewrite <- (append_nil_r t) at 1.
  rewrite (format_from_text _ _ _ _ Hb). cbn [format_from result_map].
  by rewrite append_nil_r.
Qed.

(** ** The builders with a translation service *)

Lemma digit_value_range c d : digit_value c = Some d → (0 ≤ d ≤ 9)%Z.
Proof.
  unfold digit_value, is_digit. intros H.
  destruct (Nat.leb 48 (nat_of_ascii c)) eqn:E1; [|discriminate].
  destruct (Nat.leb (nat_of_ascii c) 57) eqn:E2; [|discriminate].
  apply Nat.leb_le in E1, E2. simpl in H. injection H as <-. lia.
Qed.

Lemma digit_value_brace_free c d :
  digit_value c = Some d →
  bool_decide (c = "{"%char) = false ∧ bool_decide (c = "}"%char) = false.
Proof.
  intros H.
  split; apply bool_decide_eq_false_2; intros ->; discriminate.
Qed.

Lemma digits_value_ge s acc v :
  (0 ≤ acc)%Z → digits_value acc s = Some v → (acc ≤ v)%Z.
Proof.
  revert acc. induction s as [|c s IH]; intros acc Hacc H; simpl in H.
  - injection H as <-. lia.
  - destruct (digit_value c) as [d|] eqn:Hd; [|discriminate].
    apply digit_value_range in Hd. apply IH in H; lia.
Qed.

Lemma digits_value_brace_free s acc v :
  digits_value acc s = Some v → brace_free s = true.
Proof.
  revert acc. induction s as [|c s IH]; intros acc H; [done|]. simpl in H.
  destruct (digit_value c) as [d|] eqn:Hd; [|discriminate].
  destruct (digit_value_brace_free c d Hd) as [H1 H2].
  simpl. rewrite H1, H2. simpl. by eapply IH.
Qed.

(** On a string of digits [get_integer] returns the number it denotes when
    that number fits a [Py_ssize_t], and refuses it otherwise. *)
Lemma get_integer_from_digits s acc v :
  (0 ≤ acc ≤ PY_SSIZE_T_MAX)%Z →
  digits_value acc s = Some v →
  get_integer_from acc s
  = if (v <=? PY_SSIZE_T_MAX)%Z then Index v else TooManyDigits.
Proof.
  unfold PY_SSIZE_T_MAX.
  revert acc. induction s as [|c s IH]; intros acc Hacc H; simpl in H.
  - injection H as <-. simpl.
    by rewrite (proj2 (Z.leb_le acc 9223372036854775807)) by lia.
  - destruct (digit_value c) as [d|] eqn:Hd; [|discriminate].
    simpl. rewrite Hd. pose proof (digit_value_range c d Hd) as Hr.
    unfold PY_SSIZE_T_MAX.
    destruct (Z.ltb_spec ((9223372036854775807 - d) / 10) acc) as [Hover|Hfit].
    + assert (acc * 10 + d ≤ v)%Z as Hv by (apply (digits_value_ge s); [lia|done]).
      rewrite (proj2 (Z.leb_gt v 9223372036854775807)); [done|].
      pose proof (Z.div_mod (9223372036854775807 - d) 10 ltac:(done)).
      pose proof (Z.mod_pos_bound (9223372036854775807 - d) 10 ltac:(done)).
      lia.
    + apply IH; [|done].
      pose proof (Z.div_mod (9223372036854775807 - d) 10 ltac:(done)).
      pose proof (Z.mod_pos_bound (9223372036854775807 - d) 10 ltac:(done)).
      lia.
Qed.

Lemma get_integer_keyword f :
  plain_keyword f = true → get_integer f = NotAnIndex ∧ f ≠ "".
Proof.
  destruct f as [|c f]; [done|]. simpl.
  intros [Hc _]%andb_true_iff. apply negb_true_iff in Hc.
  unfold digit_value. by rewrite Hc.
Qed.

Lemma plain_keyword_brace_free f : plain_keyword f = true → brace_free f = true.
Proof.
  destruct f as [|c f]; [done|]. unfold plain_keyword.
  intros [_ H]%andb_true_iff. by apply name_chars_brace_free.
Qed.

Lemma field_lookup_same name arg :
  plain_keyword name = true → field_lookup name arg name = Ok arg.
Proof.
  intros [Hi Hne]%get_integer_keyword. unfold field_lookup. rewrite Hi.
  by rewrite bool_decide_eq_false_2, bool_decide_eq_true_2.
Qed.

Lemma field_lookup_foreign name arg f :
  plain_keyword f = true → f ≠ name → field_lookup name arg f = Raise KeyError.
Proof.
  intros [Hi Hne]%get_integer_keyword Hname. unfold field_lookup. rewrite Hi.
  by rewrite !bool_decide_eq_false_2.
Qed.

(** X17: the builders format whatever template the translation service
    hands back.  When it is some text, the builder's own replacement field,
    some more text, the message is the two texts with the decimal count
    between them. *)
Theorem builders_fill_translated_template n ngettext pre post :
  brace_free pre = true →
  brace_free post = true →
  (ngettext "Correctly placed {correct_count} item."
            "Correctly placed {correct_count} items." n
   = pre +:+ "{correct_count}" +:+ post →
   correctly_placed n ngettext = Ok (pre +:+ py_str_int n +:+ post)) ∧
  (ngettext "Misplaced {misplaced_count} item. Misplaced item was returned to item bank."
            "Misplaced {misplaced_count} items. Misplaced items were returned to item bank." n
   = pre +:+ "{misplaced_count}" +:+ post →
   misplaced n ngettext = Ok (pre +:+ py_str_int n +:+ post)) ∧
  (ngettext "Did not place {missing_count} required item."
            "Did not place {missing_count} required items." n
   = pre +:+ "{missing_count}" +:+ post →
   not_placed n ngettext = Ok (pre +:+ py_str_int n +:+ post)).
Proof.
  intros Hpre Hpost.
  unfold correctly_placed, misplaced, not_placed.
  repeat split; intros ->.
  - change (pre +:+ "{correct_count}" +:+ post)
      with (pre +:+ String "{" ("correct_count" +:+ String "}" post)).
    by rewrite str_format_one_field, field_lookup_same.
  - change (pre +:+ "{misplaced_count}" +:+ post)
      with (pre +:+ String "{" ("misplaced_count" +:+ String "}" post)).
    by rewrite str_format_one_field, field_lookup_same.
  - change (pre +:+ "{missing_count}" +:+ post)
      with (pre +:+ String "{" ("missing_count" +:+ String "}" post)).
    by rewrite str_format_one_field, field_lookup_same.
Qed.

Lemma builders_fill_translated_template_witness :
  correctly_placed 3 (λ _ _ _, "Richtig platziert: {correct_count}.")
  = Ok "Richtig platziert: 3.".
Proof.
  destruct (builders_fill_translated_template 3
              (λ _ _ _, "Richtig platziert: {correct_count}.")
              "Richtig platziert: " "." eq_refl eq_refl) as [H _].
  exact (H eq_refl).
Defined.

(** X18: a translated template without any replacement field is returned
    as it is: the count is dropped and nothing is raised. *)
Theorem builders_keep_fieldless_template n ngettext :
  (∀ s p k, brace_free (ngettext s p k) = true) →
  correctly_placed n ngettext
  = Ok (ngettext "Correctly placed {correct_count} item."
                 "Correctly placed {correct_count} items." n) ∧
  misplaced n ngettext
  = Ok (ngettext "Misplaced {misplaced_count} item. Misplaced item was returned to item bank."
                 "Misplaced {misplaced_count} items. Misplaced items were returned to item bank." n) ∧
  not_placed n ngettext
  = Ok (ngettext "Did not place {missing_count} required item."
                 "Did not place {missing_count} required items." n).
Proof.
  intros Hb. unfold correctly_placed, misplaced, not_placed.
  repeat split; by apply str_format_no_field.
Qed.

Lemma builders_keep_fieldless_template_witness :
  correctly_placed 3 (λ _ _ _, "Gut gemacht.") = Ok "Gut gemacht.".
Proof.
  destruct (builders_keep_fieldless_template 3 (λ _ _ _, "Gut gemacht."))
    as [H _]; [reflexivity|exact H].
Defined.

(** X19: a translated template with a replacement field that is not the
    builder's own makes [correctly_placed] raise.  A field that is another
    keyword raises KeyError.  An empty field, or a number that fits a
    [Py_ssize_t] (here: up to ten below the bound, which also clears the
    earlier overflow test of CPython 2.7), asks for a positional argument,
    of which there is none: IndexError.  A number beyond the bound raises
    ValueError. *)
Theorem correctly_placed_rejects_foreign_field n ngettext pre f post :
  brace_free pre = true →
  brace_free post = true →
  ngettext "Correctly placed {correct_count} item."
           "Correctly placed {correct_count} items." n
  = pre +:+ String "{" (f +:+ String "}" post) →
  (plain_keyword f = true → f ≠ "correct_count" →
   correctly_placed n ngettext = Raise KeyError) ∧
  (f = "" → correctly_placed n ngettext = Raise IndexError) ∧
  (∀ v, f ≠ "" → digits_value 0 f = Some v → (v ≤ PY_SSIZE_T_MAX - 10)%Z →
        correctly_placed n ngettext = Raise IndexError) ∧
  (∀ v, digits_value 0 f = Some v → (PY_SSIZE_T_MAX < v)%Z →
        correctly_placed n ngettext = Raise ValueError).
Proof.
  intros Hpre Hpost Ht. unfold correctly_placed. rewrite Ht.
  split; [|split; [|split]].
  - intros Hf Hne.
    rewrite str_format_one_field by auto using plain_keyword_brace_free.
    by rewrite field_lookup_foreign.
  - intros ->. by rewrite str_format_one_field.
  - intros v Hne Hv Hfit.
    rewrite str_format_one_field by eauto using digits_value_brace_free.
    unfold field_lookup, get_integer. destruct f as [|c f]; [done|].
    rewrite (get_integer_from_digits _ 0 v) by (done || (unfold PY_SSIZE_T_MAX; lia)).
    by rewrite (proj2 (Z.leb_le v PY_SSIZE_T_MAX)) by lia.
  - intros v Hv Hbig.
    rewrite str_format_one_field by eauto using digits_value_brace_free.
    unfold field_lookup, get_integer. destruct f as [|c f].
    { simpl in Hv. injection Hv as <-. unfold PY_SSIZE_T_MAX in Hbig. lia. }
    rewrite (get_integer_from_digits _ 0 v) by (done || (unfold PY_SSIZE_T_MAX; lia)).
    by rewrite (proj2 (Z.leb_gt v PY_SSIZE_T_MAX)) by lia.
Qed.

Lemma correctly_placed_rejects_foreign_field_witness :
  correctly_placed 3 (λ _ _ _, "Placed {count} items.") = Raise KeyError ∧
  correctly_placed 3 (λ _ _ _, "Placed {0} items.") = Raise IndexError ∧
  correctly_placed 3 (λ _ _ _, "Placed {9223372036854775808} items.")
  = Raise ValueError.
Proof.
  split; [|split].
  - destruct (correctly_placed_rejects_foreign_field 3
                (λ _ _ _, "Placed {count} items.") "Placed " "count" " items."
                eq_refl eq_refl eq_refl) as [H _].
    apply H; [reflexivity|discriminate].
  - destruct (correctly_placed_rejects_foreign_field 3
                (λ _ _ _, "Placed {0} items.") "Placed " "0" " items."
                eq_refl eq_refl eq_refl) as (_ & _ & H & _).
    apply (H 0%Z); [discriminate|reflexivity|unfold PY_SSIZE_T_MAX; lia].
  - destruct (correctly_placed_rejects_foreign_field 3
                (λ _ _ _, "Placed {9223372036854775808} items.")
                "Placed " "9223372036854775808" " items."
                eq_refl eq_refl eq_refl) as (_ & _ & _ & H).
    apply (H 9223372036854775808%Z); [reflexivity|unfold PY_SSIZE_T_MAX; lia].
Defined.

(** ** The count can be read back from a message *)

Lemma pretty_N_go_nonempty x s : s ≠ "" → pretty_N_go x s ≠ "".
Proof.
  revert s. induction (N.lt_wf_0 x) as [x _ IH]; intros s Hs.
  destruct (decide (x = 0)%N) as [->|Hx]; [by rewrite pretty_N_go_0|].
  rewrite pretty_N_go_step by lia. apply IH; [apply N.div_lt; lia|done].
Qed.

Lemma py_str_int_nonempty n : (1 ≤ String.length (py_str_int n))%nat.
Proof.
  assert (H : py_str_int n ≠ "").
  { unfold py_str_int, pretty, pretty_Z. destruct n as [|p|p].
    - done.
    - unfold pretty, pretty_positive, pretty, pretty_N.
      destruct (decide (N.pos p = 0%N)); [done|].
      rewrite pretty_N_go_step by lia. by apply pretty_N_go_nonempty.
    - intros E. rewrite append_cons in E. discriminate E. }
  destruct (py_str_int n); [done|simpl; lia].
Qed.

Lemma py_str_int_inj n m : py_str_int n = py_str_int m → n = m.
Proof. apply pretty_Z_inj. Qed.

(** Messages built from a prefix, the count and one of two endings, the
    singular one being the shorter, determine the count. *)
Lemma count_message_inj (P S1 S2 : string) n m :
  (String.length S1 < String.length S2)%nat →
  P +:+ py_str_int n +:+ (if bool_decide (n = 1%Z) then S1 else S2)
  = P +:+ py_str_int m +:+ (if bool_decide (m = 1%Z) then S1 else S2) →
  n = m.
Proof.
  intros Hlen E. apply (inj (String.append P)) in E.
  pose proof (py_str_int_nonempty n) as Hn.
  pose proof (py_str_int_nonempty m) as Hm.
  case_bool_decide as E1; case_bool_decide as E2.
  - congruence.
  - subst n. apply (f_equal String.length) in E.
    rewrite !length_append in E. change (String.length (py_str_int 1)) with 1%nat in E.
    lia.
  - subst m. apply (f_equal String.length) in E.
    rewrite !length_append in E. change (String.length (py_str_int 1)) with 1%nat in E.
    lia.
  - by apply py_str_int_inj, (append_inj_r _ _ S2).
Qed.

(** X20: with the default [ngettext_fallback] each builder is injective in
    the count: two counts that give the same message are the same count,
    the singular and plural wordings never colliding. *)
Theorem feedback_message_determines_count n m :
  correctly_placed n ngettext_fallback = correctly_placed m ngettext_fallback ∨
  misplaced n ngettext_fallback = misplaced m ngettext_fallback ∨
  not_placed n ngettext_fallback = not_placed m ngettext_fallback →
  n = m.
Proof.
  destruct (builders_fallback_text n) as (Hc & Hm & Hn).
  destruct (builders_fallback_text m) as (Hc' & Hm' & Hn').
  rewrite Hc, Hm, Hn, Hc', Hm', Hn'.
  intros [E|[E|E]]; injection E as E;
    eapply count_message_inj; [|exact E| |exact E| |exact E]; simpl; lia.
Qed.

Lemma feedback_message_determines_count_witness : 2%Z = 2%Z.
Proof.
  apply (feedback_message_determines_count 2 2). left. reflexivity.
Defined.

(** ** How migrations compose *)

(** X8: migrations compose: [_apply_migration] with the list [ms1 ++ ms2]
    is [_apply_migration] with [ms1], followed by the migrations of [ms2]
    on what it returned, in the store it left, without a second copy; when
    the copy or a migration of [ms1] raises, none of [ms2] runs. *)
Theorem apply_migration_app pv obj ms1 ms2 (h : gmap positive object) :
  _apply_migration pv obj (ms1 ++ ms2) h
  = match _apply_migration pv obj ms1 h with
    | (Ok tmp, h') => run_migrations ms2 tmp h'
    | (Raise e, h') => (Raise e, h')
    end.
Proof.
  unfold _apply_migration. unfold mbind, py_bind, bind.
  destruct (py_copy pv obj h) as [[tmp|e] h1]; [|reflexivity].
  apply run_migrations_app.
Qed.

Lemma zone_v1_to_v2_dict_idempotent d :
  zone_v1_to_v2_dict (zone_v1_to_v2_dict d) = zone_v1_to_v2_dict d.
Proof.
  unfold zone_v1_to_v2_dict at 1.
  rewrite bool_decide_eq_true_2 by apply zone_v1_to_v2_dict_has_uid.
  rewrite (delete_id _ "id") by apply zone_v1_to_v2_dict_id.
  apply delete_id, zone_v1_to_v2_dict_index.
Qed.

Lemma zone_v2_to_v2p1_dict_idempotent d :
  zone_v2_to_v2p1_dict (zone_v2_to_v2p1_dict d) = zone_v2_to_v2p1_dict d.
Proof.
  unfold zone_v2_to_v2p1_dict at 1. by rewrite zone_v2_to_v2p1_dict_aligned.
Qed.

(** X21: each of the two zone steps is idempotent on its own: run twice in
    a row on a record, a step leaves the store exactly as one run does. *)
Theorem zone_steps_idempotent (h : gmap positive object) l d :
  h !! l = Some (ODict d) →
  run_migrations [_zone_v1_to_v2; _zone_v1_to_v2] (VRef l) h
  = run_migrations [_zone_v1_to_v2] (VRef l) h ∧
  run_migrations [_zone_v2_to_v2p1; _zone_v2_to_v2p1] (VRef l) h
  = run_migrations [_zone_v2_to_v2p1] (VRef l) h.
Proof.
  intros H. simpl. py_unfold.
  rewrite (zone_v1_to_v2_run h l d H), (zone_v2_to_v2p1_run h l d H).
  rewrite (zone_v1_to_v2_run _ l (zone_v1_to_v2_dict d)) by apply lookup_insert_eq.
  rewrite (zone_v2_to_v2p1_run _ l (zone_v2_to_v2p1_dict d)) by apply lookup_insert_eq.
  by rewrite !insert_insert_eq, zone_v1_to_v2_dict_idempotent,
    zone_v2_to_v2p1_dict_idempotent.
Qed.

Lemma zone_steps_idempotent_witness :
  run_migrations [_zone_v1_to_v2; _zone_v1_to_v2] (VRef 1) (store_of legacy_zone)
  = run_migrations [_zone_v1_to_v2] (VRef 1) (store_of legacy_zone) ∧
  run_migrations [_zone_v2_to_v2p1; _zone_v2_to_v2p1] (VRef 1) (store_of legacy_zone)
  = run_migrations [_zone_v2_to_v2p1] (VRef 1) (store_of legacy_zone).
Proof.
  apply (zone_steps_idempotent (store_of legacy_zone) 1 legacy_zone). reflexivity.
Defined.
